(** * Split-Bill platform: the USSD dialogue engine

    A shallow embedding of [src/services/ussdService.ts] (the session state
    machine), of the phone helpers of the validation utilities
    ([validatePhoneNumber], [formatPhoneNumber]) and of the [/ussd] route,
    together with the properties the specification states about them.

    Conventions.
    - A JavaScript string is the list of its UTF-16 code units ([list N]).
    - A JavaScript number is an IEEE-754 binary64 value, [spec_float] of the
      standard library at precision 53 and maximal exponent 1024.
    - The module-level [sessionStore] (a [Map<string, USSDState>]) is a
      [gmap] threaded through every handler.  Each state object is created
      by one call of [processUSSDRequest] and stored under that call's
      [sessionId] only, and every mutation of a state is followed by
      [sessionStore.set] of the same object before the handler returns, so
      the functional map carries the same contents as the mutable one.
    - A turn is one atomic step: requests are processed one at a time. *)

From Stdlib Require Import ZArith NArith Ascii String SpecFloat Bool Lia.
From Stdlib Require Import DecimalString ZifyBool.
From stdpp Require Import base option list gmap.

Local Open Scope N_scope.

(** ** JavaScript strings *)

Abbreviation jsstring := (list N).

(** An ASCII literal as a list of code units. *)
Definition js (s : string) : jsstring :=
  map N_of_ascii (list_ascii_of_string s).

Definition jseqb (a b : jsstring) : bool := bool_decide (a = b).

(** [WhiteSpace] and [LineTerminator] of ECMAScript: what [trim] strips and
    what [\s] matches. *)
Definition isWhiteSpace (c : N) : bool :=
  (c =? 0x9) || (c =? 0xA) || (c =? 0xB) || (c =? 0xC) || (c =? 0xD)
  || (c =? 0x20) || (c =? 0xA0) || (c =? 0x1680)
  || ((0x2000 <=? c) && (c <=? 0x200A))
  || (c =? 0x2028) || (c =? 0x2029) || (c =? 0x202F) || (c =? 0x205F)
  || (c =? 0x3000) || (c =? 0xFEFF).

(** [\d] *)
Definition isDigit (c : N) : bool := (0x30 <=? c) && (c <=? 0x39).

Fixpoint trimStart (s : jsstring) : jsstring :=
  match s with
  | c :: r => if isWhiteSpace c then trimStart r else s
  | [] => []
  end.

Definition trimEnd (s : jsstring) : jsstring := rev (trimStart (rev s)).

(** [String.prototype.trim] *)
Definition trim (s : jsstring) : jsstring := trimEnd (trimStart s).

(** [String.prototype.split] with a one-character separator: never empty,
    the empty string splits into one empty piece. *)
Fixpoint split (sep : N) (s : jsstring) : list jsstring :=
  match s with
  | [] => [[]]
  | c :: r =>
      if c =? sep then [] :: split sep r
      else match split sep r with
           | h :: t => (c :: h) :: t
           | [] => [[c]]
           end
  end.

(** [String.prototype.startsWith] *)
Fixpoint startsWith (s p : jsstring) {struct p} : bool :=
  match p, s with
  | [], _ => true
  | a :: p', b :: s' => (a =? b) && startsWith s' p'
  | _ :: _, [] => false
  end.

(** [s.substring(n)] *)
Definition substring (n : nat) (s : jsstring) : jsstring := drop n s.

(** ** Regular expressions

    The three patterns of the source use literals, character classes, an
    alternative, an optional group and a counted repetition.  A pattern
    anchored by [^] and [$] is tested by Brzozowski derivatives. *)

Inductive regex : Type :=
  | RNone
  | REps
  | RClass (p : N -> bool)
  | RSeq (r1 r2 : regex)
  | RAlt (r1 r2 : regex).

Definition RChar (c : N) : regex := RClass (N.eqb c).

Fixpoint RLit (s : jsstring) : regex :=
  match s with
  | [] => REps
  | c :: r => RSeq (RChar c) (RLit r)
  end.

Definition ROpt (r : regex) : regex := RAlt r REps.

Fixpoint RTimes (n : nat) (r : regex) : regex :=
  match n with
  | O => REps
  | S k => RSeq r (RTimes k r)
  end.

Fixpoint nullable (r : regex) : bool :=
  match r with
  | RNone => false
  | REps => true
  | RClass _ => false
  | RSeq a b => nullable a && nullable b
  | RAlt a b => nullable a || nullable b
  end.

Fixpoint deriv (c : N) (r : regex) : regex :=
  match r with
  | RNone => RNone
  | REps => RNone
  | RClass p => if p c then REps else RNone
  | RSeq a b =>
      if nullable a then RAlt (RSeq (deriv c a) b) (deriv c b)
      else RSeq (deriv c a) b
  | RAlt a b => RAlt (deriv c a) (deriv c b)
  end.

(** [/^r$/.test(s)] *)
Fixpoint regex_test (r : regex) (s : jsstring) : bool :=
  match s with
  | [] => nullable r
  | c :: s' => regex_test (deriv c r) s'
  end.

(** [[67]] *)
Definition is67 (c : N) : bool := (c =? 0x36) || (c =? 0x37).

(** [/^(\+255|0)?[67]\d{8}$/] *)
Definition phoneRegex : regex :=
  RSeq (ROpt (RAlt (RLit (js "+255")) (RLit (js "0"))))
       (RSeq (RClass is67) (RTimes 8 (RClass isDigit))).

(** [/^[67]\d{8}$/] *)
Definition localRegex : regex :=
  RSeq (RClass is67) (RTimes 8 (RClass isDigit)).

(** The class [[\s\-\(\)]]. *)
Definition isSeparator (c : N) : bool :=
  isWhiteSpace c || (c =? 0x2D) || (c =? 0x28) || (c =? 0x29).

(** [phone.replace(/[\s\-\(\)]/g, '')] *)
Definition stripSeparators (phone : jsstring) : jsstring :=
  List.filter (fun c => negb (isSeparator c)) phone.

(** ** Phone helpers of the validation utilities *)

Definition validatePhoneNumber (phone : jsstring) : bool :=
  let cleanPhone := stripSeparators phone in
  regex_test phoneRegex cleanPhone.

Definition formatPhoneNumber (phone : jsstring) : jsstring :=
  let cleanPhone := stripSeparators phone in
  if startsWith cleanPhone (js "0") then js "+255" ++ substring 1 cleanPhone
  else if startsWith cleanPhone (js "+255") then cleanPhone
  else if startsWith cleanPhone (js "255") then js "+" ++ cleanPhone
  else if regex_test localRegex cleanPhone then js "+255" ++ cleanPhone
  else cleanPhone.

(** ** JavaScript numbers *)

Abbreviation number := spec_float.

Definition prec : Z := 53.
Definition emax : Z := 1024.

Definition isNaN (x : number) : bool :=
  match x with
  | S754_nan => true
  | _ => false
  end.

(** [Number.isFinite] *)
Definition isFinite (x : number) : bool :=
  match x with
  | S754_zero _ | S754_finite _ _ _ => true
  | _ => false
  end.

Definition zero : number := S754_zero false.

(** [x <= 0] and [x > 0]; both are false on NaN. *)
Definition le0 (x : number) : bool := SFleb x zero.
Definition gt0 (x : number) : bool := SFltb zero x.

(** The Number value of [(-1)^neg * m * 10^e]: the nearest binary64, ties
    to even, overflow to an infinity, underflow to a signed zero. *)
Definition roundDecimal (neg : bool) (m e : Z) : number :=
  match m with
  | Zpos p =>
      if (0 <=? e)%Z then
        binary_round prec emax neg (Z.to_pos (Zpos p * 10 ^ e)) 0
      else
        let '(q, e', l) :=
          SFdiv_core_binary prec emax (Zpos p) 0 (10 ^ (- e))%Z 0 in
        binary_round_aux prec emax neg q e' l
  | _ => S754_zero neg
  end.

(** The longest prefix of [s] made of characters satisfying [p], and the
    rest. *)
Fixpoint span (p : N -> bool) (s : jsstring) : jsstring * jsstring :=
  match s with
  | c :: r =>
      if p c then let '(a, b) := span p r in (c :: a, b) else ([], s)
  | [] => ([], [])
  end.

Definition digitsValue (ds : jsstring) : Z :=
  fold_left (fun acc c => (10 * acc + Z.of_N (c - 0x30))%Z) ds 0%Z.

(** An optional leading sign: [true] for [-]. *)
Definition takeSign (s : jsstring) : bool * jsstring :=
  match s with
  | c :: r =>
      if c =? 0x2B then (false, r)
      else if c =? 0x2D then (true, r)
      else (false, s)
  | [] => (false, [])
  end.

(** The value of an [ExponentPart] at the head of [s], 0 when there is
    none ([e] or [E], an optional sign, at least one digit). *)
Definition exponentPart (s : jsstring) : Z :=
  match s with
  | c :: r =>
      if (c =? 0x65) || (c =? 0x45) then
        let '(neg, r1) := takeSign r in
        let '(ds, _) := span isDigit r1 in
        match ds with
        | [] => 0%Z
        | _ => if neg then (- digitsValue ds)%Z else digitsValue ds
        end
      else 0%Z
  | [] => 0%Z
  end.

(** The fraction at the head of [r1]: a point and the digits after it. *)
Definition fractionPart (r1 : jsstring) : jsstring * jsstring :=
  match r1 with
  | c :: r => if c =? 0x2E then span isDigit r else ([], r1)
  | [] => ([], r1)
  end.

(** The Number value of the longest prefix of [trimmed] that is a
    [StrDecimalLiteral]; NaN when there is no such prefix. *)
Definition strDecimalPrefix (trimmed : jsstring) : number :=
  let '(neg, rest) := takeSign trimmed in
  if startsWith rest (js "Infinity") then S754_infinity neg
  else
    let '(ip, r1) := span isDigit rest in
    let '(fp, r2) := fractionPart r1 in
    match ip ++ fp with
    | [] => S754_nan
    | ds =>
        roundDecimal neg (digitsValue ds)
          (exponentPart r2 - Z.of_nat (length fp))
    end.

(** The global [parseFloat]: leading white space is skipped, the longest
    prefix that is a [StrDecimalLiteral] is read, anything after it is
    ignored. *)
Definition parseFloat (input : jsstring) : number :=
  strDecimalPrefix (trimStart input).

(** Decimal digits of a natural number, as [String(n)] prints an integer
    below 10^21. *)
Definition decimalDigits (n : N) : jsstring :=
  js (NilZero.string_of_uint (N.to_uint n)).

(** The digits of [n / 10^f] with exactly [f] decimals ([f > 0] inserts the
    point, padding with zeros on the left up to [f + 1] digits). *)
Definition fixedDigits (n : N) (f : nat) : jsstring :=
  let m := decimalDigits n in
  match f with
  | O => m
  | _ =>
      let m' := replicate (S f - length m) 0x30 ++ m in
      let k := length m' in
      take (k - f) m' ++ js "." ++ drop (k - f) m'
  end.

(** Identity of two Number values (same sign, significand and exponent). *)
Definition sameNumber (a b : number) : bool :=
  match a, b with
  | S754_zero s, S754_zero s' => eqb s s'
  | S754_infinity s, S754_infinity s' => eqb s s'
  | S754_finite s m e, S754_finite s' m' e' =>
      eqb s s' && (m =? m')%positive && (e =? e')%Z
  | _, _ => false
  end.

(** Number of decimal digits of a positive integer. *)
Definition decimalLength (v : Z) : nat := length (decimalDigits (Z.to_N v)).

(** One round of the search of [Number::toString] for an integer value [v]
    of [n0] digits whose Number value is [x]: the [k]-digit significands
    [s] with [s * 10^(n0-k)] rounding to [x]; of two, the one nearer to
    [v], the even one on a tie. *)
Definition shortestAt (x : number) (v : Z) (n0 k : nat) : option Z :=
  let p := (Z.of_nat n0 - Z.of_nat k)%Z in
  let t := (10 ^ p)%Z in
  let lo := (v / t)%Z in
  let hi := (lo + 1)%Z in
  let okLo := sameNumber (roundDecimal false lo p) x in
  let okHi := sameNumber (roundDecimal false hi p) x in
  match okLo, okHi with
  | true, true =>
      match (v - lo * t ?= hi * t - v)%Z with
      | Lt => Some lo
      | Gt => Some hi
      | Eq => if Z.even lo then Some lo else Some hi
      end
  | true, false => Some lo
  | false, true => Some hi
  | false, false => None
  end.

Fixpoint shortestFrom (x : number) (v : Z) (n0 k fuel : nat) : nat * Z :=
  match fuel with
  | O => (k, (v / 10 ^ (Z.of_nat n0 - Z.of_nat k))%Z)
  | S fuel' =>
      match shortestAt x v n0 k with
      | Some s => (k, s)
      | None => shortestFrom x v n0 (S k) fuel'
      end
  end.

(** [Number::toString] of a positive integer-valued Number [m * 2^e] that
    is at least 10^21: the shortest significand that reads back as the
    same Number (17 digits always do), in exponential notation. *)
Definition toStringLarge (m : positive) (e : Z) : jsstring :=
  let x := S754_finite false m e in
  let v := (Zpos m * 2 ^ e)%Z in
  let n0 := decimalLength v in
  let '(k, s) := shortestFrom x v n0 1 17 in
  let '(s, n) :=
    if (s =? 10 ^ Z.of_nat k)%Z then ((10 ^ (Z.of_nat k - 1))%Z, S n0)
    else (s, n0) in
  let ds := decimalDigits (Z.to_N s) in
  let expo := js "e+" ++ decimalDigits (N.of_nat (n - 1)) in
  match k with
  | 1%nat => ds ++ expo
  | _ => take 1 ds ++ js "." ++ drop 1 ds ++ expo
  end.

(** [Number.prototype.toFixed]: NaN and the infinities print by name, a
    value of magnitude at least 10^21 prints as [toString] does, any other
    value is rounded to [f] decimals, half away from zero on its exact
    binary value. *)
Definition toFixed (x : number) (f : nat) : jsstring :=
  match x with
  | S754_nan => js "NaN"
  | S754_infinity s => if s then js "-Infinity" else js "Infinity"
  | S754_zero _ => fixedDigits 0 f
  | S754_finite s m e =>
      let '(num, den) :=
        if (0 <=? e)%Z then ((Zpos m * 2 ^ e)%Z, 1%Z)
        else (Zpos m, (2 ^ (- e))%Z) in
      let sign := if s then js "-" else [] in
      if (10 ^ 21 * den <=? num)%Z then sign ++ toStringLarge m e
      else
        let n := ((2 * num * 10 ^ Z.of_nat f + den) / (2 * den))%Z in
        sign ++ fixedDigits (Z.to_N n) f
  end.

(** JavaScript division [x / n] by a list length. *)
Definition divByLength (x : number) (n : nat) : number :=
  SFdiv prec emax x (binary_normalize prec emax (Z.of_nat n) 0 false).

(** ** Data model of the USSD service *)

Inductive Status : Type := CON | END.

(** The [step] field: ['amount' | 'members' | 'confirm']. *)
Inductive Step : Type := AmountStep | MembersStep | ConfirmStep.

Module USSDRequest.
Record t : Type := mk {
  sessionId : jsstring;
  serviceCode : jsstring;
  phoneNumber : jsstring;
  text : jsstring
}.
End USSDRequest.

Module USSDResponse.
Record t : Type := mk {
  sessionId : jsstring;
  serviceCode : jsstring;
  message : jsstring;
  status : Status
}.
End USSDResponse.

(** Optional fields ([amount?], [creatorName?], [phoneNumber?]) are
    [None] when undefined. *)
Module USSDState.
Record t : Type := mk {
  step : Step;
  amount : option number;
  memberPhones : list jsstring;
  creatorName : option jsstring;
  phoneNumber : option jsstring
}.
End USSDState.

(** What [handleConfirmStep] hands to the Bill Store.  The non-null
    assertions [state.phoneNumber!] and [state.amount!] are erased at run
    time, so an undefined field travels as it is. *)
Module CreateBillRequest.
Record t : Type := mk {
  creatorPhone : option jsstring;
  creatorName : jsstring;
  amount : option number;
  memberPhones : list jsstring
}.
End CreateBillRequest.

Module BillMember.
(** The row type [BillMember] of [db/schema] (a selected row of the table
    [bill_members]; the text of the schema follows that of [utils/logger]
    in the sources), reduced to the columns [member_phone] (a varchar) and
    [amount] (a decimal column, read back as text).  The engine reads
    only the number of members of a bill. *)
Record t : Type := mk {
  member_phone : jsstring;
  amount : jsstring
}.
End BillMember.

Module BillWithMembers.
(** [BillWithMembers] of [services/billService]: the row type [Bill] of
    [db/schema] (a selected row of the table [bills]) with the members
    [createBill] adds to it, reduced to the fields the engine reads: the
    [id] (a serial key, an integer below 2^31), the total [amount] (a
    decimal column, read back as text) and the [members]. *)
Record t : Type := mk {
  id : N;
  amount : jsstring;
  members : list BillMember.t
}.
End BillWithMembers.

(** Thrown values. *)
Inductive JSError : Type :=
  | TypeError
  | Error (msg : jsstring).

(** How a call completes: with a value, or by throwing (for an [async]
    function: a fulfilled or a rejected promise). *)
Inductive completion (A : Type) : Type :=
  | Normal (a : A)
  | Throw (e : JSError).
Arguments Normal {A} a.
Arguments Throw {A} e.

(** The Bill Store as the engine sees it: [billService.createBill] either
    resolves to the created bill or rejects. *)
Abbreviation BillStore := (CreateBillRequest.t -> completion BillWithMembers.t).

(** The in-memory [sessionStore]. *)
Abbreviation SessionStore := (gmap (list N) USSDState.t).

(** ** The USSD service *)

Definition nl : jsstring := [0xA].
Definition checkMark : jsstring := [0x2705].
Definition crossMark : jsstring := [0x274C].
Definition clipboard : jsstring := [0xD83D; 0xDCCB].

(** [!text || text.trim() === ''] *)
Definition isBlank (text : jsstring) : bool :=
  jseqb text [] || jseqb (trim text) [].

(** [name || 'User'] *)
Definition orUser (name : option jsstring) : jsstring :=
  match name with
  | Some (c :: r) => c :: r
  | _ => js "User"
  end.

(** [phoneNumbers.join('\n')] *)
Fixpoint join (sep : jsstring) (l : list jsstring) : jsstring :=
  match l with
  | [] => []
  | [a] => a
  | a :: r => a ++ sep ++ join sep r
  end.

Definition createResponse (sessionId message : jsstring) (status : Status)
  : USSDResponse.t :=
  {| USSDResponse.sessionId := sessionId;
     USSDResponse.serviceCode := js "*123#";
     USSDResponse.message := message;
     USSDResponse.status := status |}.

Definition extractNameFromPhone (_phone : jsstring) : jsstring := js "User".

Definition isValidPhoneNumber (phone : jsstring) : bool :=
  regex_test phoneRegex phone.

Definition invalidAmountMessage : jsstring :=
  js "Invalid amount. Please enter a valid number greater than 0:".

Definition genericErrorMessage : jsstring :=
  js "An error occurred. Please try again.".

Definition handleAmountStep (request : USSDRequest.t) (state : USSDState.t)
    (sessionStore : SessionStore) : SessionStore * completion USSDResponse.t :=
  let sessionId := USSDRequest.sessionId request in
  let text := USSDRequest.text request in
  let phoneNumber := USSDRequest.phoneNumber request in
  if isBlank text then
    let state :=
      {| USSDState.step := USSDState.step state;
         USSDState.amount := USSDState.amount state;
         USSDState.memberPhones := USSDState.memberPhones state;
         USSDState.creatorName := Some (extractNameFromPhone phoneNumber);
         USSDState.phoneNumber := Some phoneNumber |} in
    (<[sessionId := state]> sessionStore,
     Normal (createResponse sessionId
       (js "Welcome " ++ orUser (USSDState.creatorName state) ++ js "!"
        ++ nl ++ nl ++ js "Enter the total bill amount:")
       CON))
  else
    let amount := parseFloat (trim text) in
    if isNaN amount || le0 amount then
      (sessionStore, Normal (createResponse sessionId invalidAmountMessage CON))
    else
      let state :=
        {| USSDState.step := MembersStep;
           USSDState.amount := Some amount;
           USSDState.memberPhones := USSDState.memberPhones state;
           USSDState.creatorName := USSDState.creatorName state;
           USSDState.phoneNumber := USSDState.phoneNumber state |} in
      (<[sessionId := state]> sessionStore,
       Normal (createResponse sessionId
         (js "Bill amount: " ++ toFixed amount 2 ++ js " TZS" ++ nl ++ nl
          ++ js "Enter phone numbers separated by commas (e.g., 0712345678,0756789012):")
         CON)).

(** The list kept by [handleMembersStep]:
    [text.split(',').map(trim).filter(isValidPhoneNumber)]. *)
Definition parsePhoneNumbers (text : jsstring) : list jsstring :=
  List.filter isValidPhoneNumber (map trim (split 0x2C text)).

(** The state is stored before the summary is built; building it calls
    [toFixed] on [state.amount!] and throws a [TypeError] when the amount
    is undefined. *)
Definition handleMembersStep (request : USSDRequest.t) (state : USSDState.t)
    (sessionStore : SessionStore) : SessionStore * completion USSDResponse.t :=
  let sessionId := USSDRequest.sessionId request in
  let text := USSDRequest.text request in
  if isBlank text then
    (sessionStore,
     Normal (createResponse sessionId
       (js "Please enter phone numbers separated by commas:") CON))
  else
    let phoneNumbers := parsePhoneNumbers text in
    if (length phoneNumbers =? 0)%nat then
      (sessionStore,
       Normal (createResponse sessionId
         (js "No valid phone numbers found. Please enter valid phone numbers separated by commas:")
         CON))
    else
      let state :=
        {| USSDState.step := ConfirmStep;
           USSDState.amount := USSDState.amount state;
           USSDState.memberPhones := phoneNumbers;
           USSDState.creatorName := USSDState.creatorName state;
           USSDState.phoneNumber := USSDState.phoneNumber state |} in
      let sessionStore := <[sessionId := state]> sessionStore in
      match USSDState.amount state with
      | None => (sessionStore, Throw TypeError)
      | Some totalAmount =>
          let amountPerPerson := divByLength totalAmount (length phoneNumbers) in
          let confirmationMessage :=
            clipboard ++ js " Bill Summary:" ++ nl
            ++ js "Total Amount: " ++ toFixed totalAmount 2 ++ js " TZS" ++ nl
            ++ js "Members: " ++ decimalDigits (N.of_nat (length phoneNumbers)) ++ nl
            ++ js "Amount per person: " ++ toFixed amountPerPerson 2
            ++ js " TZS" ++ nl ++ nl
            ++ js "Phone Numbers:" ++ nl ++ join nl phoneNumbers ++ nl ++ nl
            ++ js "Reply:" ++ nl
            ++ js "1 - Confirm and Create Bill" ++ nl
            ++ js "2 - Cancel" in
          (sessionStore, Normal (createResponse sessionId confirmationMessage CON))
      end.

(** [await billService.createBill] is the only call that can fail here,
    and its failure is caught on the spot. *)
Definition handleConfirmStep (createBill : BillStore) (request : USSDRequest.t)
    (state : USSDState.t) (sessionStore : SessionStore)
  : SessionStore * completion USSDResponse.t :=
  let sessionId := USSDRequest.sessionId request in
  let text := USSDRequest.text request in
  if jseqb text (js "1") then
    let billRequest :=
      {| CreateBillRequest.creatorPhone := USSDState.phoneNumber state;
         CreateBillRequest.creatorName := orUser (USSDState.creatorName state);
         CreateBillRequest.amount := USSDState.amount state;
         CreateBillRequest.memberPhones := USSDState.memberPhones state |} in
    match createBill billRequest with
    | Normal bill =>
        (delete sessionId sessionStore,
         Normal (createResponse sessionId
           (checkMark ++ js " Bill created successfully!" ++ nl ++ nl
            ++ js "Bill ID: " ++ decimalDigits (BillWithMembers.id bill) ++ nl
            ++ js "Amount: " ++ BillWithMembers.amount bill ++ js " TZS" ++ nl
            ++ js "Members: "
            ++ decimalDigits (N.of_nat (length (BillWithMembers.members bill)))
            ++ nl ++ nl
            ++ js "SMS notifications have been sent to all members.")
           END))
    | Throw _ =>
        (sessionStore,
         Normal (createResponse sessionId
           (crossMark ++ js " Failed to create bill. Please try again later.")
           END))
    end
  else if jseqb text (js "2") then
    (delete sessionId sessionStore,
     Normal (createResponse sessionId
       (crossMark ++ js " Bill creation cancelled. Thank you for using Split-Bill!")
       END))
  else
    (sessionStore,
     Normal (createResponse sessionId
       (js "Invalid option. Please reply with:" ++ nl
        ++ js "1 - Confirm and Create Bill" ++ nl ++ js "2 - Cancel")
       CON)).

(** The state a turn starts from when the store has none for the id. *)
Definition freshState (phoneNumber : jsstring) : USSDState.t :=
  {| USSDState.step := AmountStep;
     USSDState.amount := None;
     USSDState.memberPhones := [];
     USSDState.creatorName := None;
     USSDState.phoneNumber := Some phoneNumber |}.

(** [sessionStore.get(sessionId) || { step: 'amount', ... }] *)
Definition getOrCreate (request : USSDRequest.t) (sessionStore : SessionStore)
  : USSDState.t :=
  default (freshState (USSDRequest.phoneNumber request))
          (sessionStore !! USSDRequest.sessionId request).

(** The [catch] clause of [processUSSDRequest]. *)
Definition catchError (sessionId : jsstring)
    (r : SessionStore * completion USSDResponse.t)
  : SessionStore * completion USSDResponse.t :=
  match r with
  | (sessionStore, Throw _) =>
      (sessionStore, Normal (createResponse sessionId genericErrorMessage END))
  | _ => r
  end.

(** The two synchronous handlers run inside the [try] block.  The promise
    of [handleConfirmStep] is returned without [await], so the [catch]
    clause does not cover it.  The [default] branch of the [switch] has no
    counterpart: [Step] has three values. *)
Definition processUSSDRequest (createBill : BillStore) (request : USSDRequest.t)
    (sessionStore : SessionStore) : SessionStore * completion USSDResponse.t :=
  let sessionId := USSDRequest.sessionId request in
  let state := getOrCreate request sessionStore in
  match USSDState.step state with
  | AmountStep => catchError sessionId (handleAmountStep request state sessionStore)
  | MembersStep => catchError sessionId (handleMembersStep request state sessionStore)
  | ConfirmStep => handleConfirmStep createBill request state sessionStore
  end.

Definition getSessionInfo (sessionId : jsstring) (sessionStore : SessionStore)
  : option USSDState.t :=
  sessionStore !! sessionId.

Definition getSessionCount (sessionStore : SessionStore) : nat :=
  size sessionStore.

Definition clearAllSessions (sessionStore : SessionStore) : SessionStore := ∅.

(** ** The [/ussd] route *)

(** A field of the JSON body: missing, present with a value that is not a
    string, or a string. *)
Inductive jsonField : Type :=
  | Absent
  | NotAString
  | Str (s : jsstring).

Module Body.
Record t : Type := mk {
  sessionId : jsonField;
  serviceCode : jsonField;
  phoneNumber : jsonField;
  text : jsonField
}.
End Body.

Inductive Reply : Type :=
  | Send (response : USSDResponse.t)
  | BadRequest
  | ServerError.

(** [z.string().min(1)] *)
Definition requiredString (f : jsonField) : option jsstring :=
  match f with
  | Str (c :: r) => Some (c :: r)
  | _ => None
  end.

(** [z.string().optional().default('')] *)
Definition optionalString (f : jsonField) : option jsstring :=
  match f with
  | Absent => Some []
  | Str s => Some s
  | NotAString => None
  end.

(** [ussdRequestSchema.parse]; [None] stands for a [ZodError]. *)
Definition ussdRequestSchema (body : option Body.t) : option USSDRequest.t :=
  match body with
  | None => None
  | Some b =>
      match requiredString (Body.sessionId b), requiredString (Body.serviceCode b),
            requiredString (Body.phoneNumber b), optionalString (Body.text b) with
      | Some sessionId, Some serviceCode, Some phoneNumber, Some text =>
          Some (USSDRequest.mk sessionId serviceCode phoneNumber text)
      | _, _, _, _ => None
      end
  end.

(** [POST /ussd]: 400 on a schema error, 500 on any other error, the
    engine's response otherwise. *)
Definition ussdRoute (createBill : BillStore) (body : option Body.t)
    (sessionStore : SessionStore) : SessionStore * Reply :=
  match ussdRequestSchema body with
  | None => (sessionStore, BadRequest)
  | Some request =>
      match processUSSDRequest createBill request sessionStore with
      | (sessionStore', Normal response) => (sessionStore', Send response)
      | (sessionStore', Throw _) => (sessionStore', ServerError)
      end
  end.

(** ** Notions used by the properties *)

(** The [switch] of [processUSSDRequest] without its [try]/[catch]. *)
Definition handleStep (createBill : BillStore) (request : USSDRequest.t)
    (state : USSDState.t) (sessionStore : SessionStore)
  : SessionStore * completion USSDResponse.t :=
  match USSDState.step state with
  | AmountStep => handleAmountStep request state sessionStore
  | MembersStep => handleMembersStep request state sessionStore
  | ConfirmStep => handleConfirmStep createBill request state sessionStore
  end.

(** Position of a step in the dialogue. *)
Definition rank (s : Step) : nat :=
  match s with
  | AmountStep => 0
  | MembersStep => 1
  | ConfirmStep => 2
  end.

(** One turn, as seen from one session id: what the store held before and
    after.  A stored session keeps or raises its step, one at confirmation
    is kept as it is or deleted, only one at confirmation is deleted, and a
    session never appears at confirmation. *)
Definition forward (before after : option USSDState.t) : Prop :=
  match before, after with
  | Some s, Some s' =>
      (rank (USSDState.step s) <= rank (USSDState.step s'))%nat
      /\ (USSDState.step s = ConfirmStep -> s' = s)
  | Some s, None => USSDState.step s = ConfirmStep
  | None, Some s' => USSDState.step s' <> ConfirmStep
  | None, None => True
  end.

(** A turn: how the Bill Store answers during it, and the request. *)
Abbreviation Turn := (BillStore * USSDRequest.t)%type.

Definition runTurn (t : Turn) (sessionStore : SessionStore) : SessionStore :=
  fst (processUSSDRequest (fst t) (snd t) sessionStore).

(** What the store holds for [sessionId] before the first turn and after
    each turn of a sequence. *)
Fixpoint history (turns : list Turn) (sessionStore : SessionStore)
    (sessionId : jsstring) : list (option USSDState.t) :=
  (sessionStore !! sessionId) ::
  match turns with
  | [] => []
  | t :: rest => history rest (runTurn t sessionStore) sessionId
  end.

(** [R] holds between every two neighbours of a list. *)
Fixpoint chain {A : Type} (R : A -> A -> Prop) (l : list A) : Prop :=
  match l with
  | a :: r =>
      match r with
      | b :: _ => R a b /\ chain R r
      | [] => True
      end
  | [] => True
  end.

(** The stores the service can be in: empty at start-up, then changed by
    turns and by [clearAllSessions] only. *)
Inductive reachable : SessionStore -> Prop :=
  | reach_start : reachable ∅
  | reach_turn (createBill : BillStore) (request : USSDRequest.t) sessionStore :
      reachable sessionStore ->
      reachable (fst (processUSSDRequest createBill request sessionStore))
  | reach_clear sessionStore :
      reachable sessionStore -> reachable (clearAllSessions sessionStore).

(** What the members and confirmation handlers rely on. *)
Definition wellFormed (state : USSDState.t) : Prop :=
  is_Some (USSDState.phoneNumber state)
  /\ (USSDState.step state <> AmountStep ->
      exists a, USSDState.amount state = Some a /\ gt0 a = true).

(** What a session at the confirmation step holds: a non-empty member
    list whose entries all match the phone pattern. *)
Definition membersChecked (state : USSDState.t) : Prop :=
  USSDState.step state = ConfirmStep ->
  USSDState.memberPhones state <> []
  /\ Forall (fun p => isValidPhoneNumber p = true) (USSDState.memberPhones state).

(** The normalizer of the specification, [normalize(raw)]: the canonical
    form of a number that validates, nothing for one that does not. *)
Definition normalize (raw : jsstring) : option jsstring :=
  if validatePhoneNumber raw then Some (formatPhoneNumber raw) else None.

(** The member list the specification describes: the entries of the
    comma-separated input that normalize, in their normalized form. *)
Definition normalizedMembers (text : jsstring) : list jsstring :=
  omap normalize (split 0x2C text).

(** What one turn does to the store, given the state it starts from. *)
Inductive StoreEffect (request : USSDRequest.t) (state : USSDState.t)
    (sessionStore : SessionStore) : SessionStore -> Prop :=
  | effect_none : StoreEffect request state sessionStore sessionStore
  | effect_welcome :
      USSDState.step state = AmountStep ->
      StoreEffect request state sessionStore
        (<[USSDRequest.sessionId request :=
             {| USSDState.step := AmountStep;
                USSDState.amount := USSDState.amount state;
                USSDState.memberPhones := USSDState.memberPhones state;
                USSDState.creatorName := Some (js "User");
                USSDState.phoneNumber := Some (USSDRequest.phoneNumber request) |}]>
           sessionStore)
  | effect_amount a :
      USSDState.step state = AmountStep ->
      a = parseFloat (trim (USSDRequest.text request)) ->
      gt0 a = true ->
      StoreEffect request state sessionStore
        (<[USSDRequest.sessionId request :=
             {| USSDState.step := MembersStep;
                USSDState.amount := Some a;
                USSDState.memberPhones := USSDState.memberPhones state;
                USSDState.creatorName := USSDState.creatorName state;
                USSDState.phoneNumber := USSDState.phoneNumber state |}]>
           sessionStore)
  | effect_members phones :
      USSDState.step state = MembersStep ->
      phones = parsePhoneNumbers (USSDRequest.text request) ->
      phones <> [] ->
      StoreEffect request state sessionStore
        (<[USSDRequest.sessionId request :=
             {| USSDState.step := ConfirmStep;
                USSDState.amount := USSDState.amount state;
                USSDState.memberPhones := phones;
                USSDState.creatorName := USSDState.creatorName state;
                USSDState.phoneNumber := USSDState.phoneNumber state |}]>
           sessionStore)
  | effect_delete :
      USSDState.step state = ConfirmStep ->
      StoreEffect request state sessionStore
        (delete (USSDRequest.sessionId request) sessionStore).

(** White space only. *)
Definition blank (w : jsstring) : Prop := forallb isWhiteSpace w = true.

(** Sample data for the closed statements below. *)
Definition sampleRequest (sessionId text : string) : USSDRequest.t :=
  USSDRequest.mk (js sessionId) (js "*384#") (js "+255700000000") (js text).

Definition acceptingStore : BillStore :=
  fun r =>
    Normal (BillWithMembers.mk 7 (js "50000")
              (map (fun p => BillMember.mk p (js "25000"))
                   (CreateBillRequest.memberPhones r))).

Definition failingStore : BillStore :=
  fun _ => Throw (Error (js "Failed to create bill")).

Definition amountRequest : USSDRequest.t := sampleRequest "s1" "5000".

Definition membersRequest : USSDRequest.t :=
  sampleRequest "s1" "0712345678, notanumber, 0698765432".

(** The amount 5000. *)
Definition fiveThousand : number := S754_finite false 5497558138880000 (-40).

Definition stateAtMembers : USSDState.t :=
  {| USSDState.step := MembersStep;
     USSDState.amount := Some fiveThousand;
     USSDState.memberPhones := [];
     USSDState.creatorName := None;
     USSDState.phoneNumber := Some (js "+255700000000") |}.

Definition stateAtConfirm : USSDState.t :=
  {| USSDState.step := ConfirmStep;
     USSDState.amount := Some fiveThousand;
     USSDState.memberPhones := [js "0712345678"; js "0698765432"];
     USSDState.creatorName := None;
     USSDState.phoneNumber := Some (js "+255700000000") |}.

(** The store after a first turn "5000" on the empty store, and after a
    second turn listing the members. *)
Definition storeAtMembers : SessionStore :=
  fst (processUSSDRequest acceptingStore amountRequest ∅).

Definition storeAtConfirm : SessionStore :=
  fst (processUSSDRequest acceptingStore membersRequest storeAtMembers).

(** A store no turn produces: a session at the members step without an
    amount. *)
Definition storeWithoutAmount : SessionStore :=
  {[ js "s1" :=
       {| USSDState.step := MembersStep;
          USSDState.amount := None;
          USSDState.memberPhones := [];
          USSDState.creatorName := None;
          USSDState.phoneNumber := Some (js "+255700000000") |} ]}.

(** ** Further helpers of the validation utilities *)

(** [[<>]] *)
Definition isAngle (c : N) : bool := (c =? 0x3C) || (c =? 0x3E).

(** [input.trim().replace(/[<>]/g, '')] *)
Definition sanitizeInput (input : jsstring) : jsstring :=
  List.filter (fun c => negb (isAngle c)) (trim input).

(** [[a-zA-Z0-9]] *)
Definition isAlnum (c : N) : bool :=
  ((0x61 <=? c) && (c <=? 0x7A)) || ((0x41 <=? c) && (c <=? 0x5A)) || isDigit c.

(** [r{0,n}] *)
Fixpoint RUpTo (n : nat) (r : regex) : regex :=
  match n with
  | O => REps
  | S k => ROpt (RSeq r (RUpTo k r))
  end.

(** [/^[a-zA-Z0-9]{8,32}$/] *)
Definition sessionIdRegex : regex :=
  RSeq (RTimes 8 (RClass isAlnum)) (RUpTo 24 (RClass isAlnum)).

Definition validateSessionId (sessionId : jsstring) : bool :=
  regex_test sessionIdRegex sessionId.

(** ** The health endpoint of the route *)

(** The [sessionCount] field of [GET /ussd/health]: a number or ['N/A']. *)
Inductive SessionCount : Type :=
  | Count (n : nat)
  | NotAvailable.

(** [ussdService.getSessionCount?.() || 'N/A']: the count 0 is falsy. *)
Definition healthSessionCount (sessionStore : SessionStore) : SessionCount :=
  match getSessionCount sessionStore with
  | O => NotAvailable
  | S n => Count (S n)
  end.

(** ** Notions used by the further properties *)

(** The strings a pattern matches. *)
Inductive matches : regex -> jsstring -> Prop :=
  | matches_eps : matches REps []
  | matches_class p c : p c = true -> matches (RClass p) [c]
  | matches_seq r1 r2 s1 s2 :
      matches r1 s1 -> matches r2 s2 -> matches (RSeq r1 r2) (s1 ++ s2)
  | matches_alt_l r1 r2 s : matches r1 s -> matches (RAlt r1 r2) s
  | matches_alt_r r1 r2 s : matches r2 s -> matches (RAlt r1 r2) s.

(** A national number: a 6 or a 7, then eight digits. *)
Definition isNational (n : jsstring) : bool :=
  match n with
  | d :: ds => is67 d && (length ds =? 8)%nat && forallb isDigit ds
  | [] => false
  end.

(** The bill request [handleConfirmStep] builds from a state. *)
Definition billRequestOf (state : USSDState.t) : CreateBillRequest.t :=
  {| CreateBillRequest.creatorPhone := USSDState.phoneNumber state;
     CreateBillRequest.creatorName := orUser (USSDState.creatorName state);
     CreateBillRequest.amount := USSDState.amount state;
     CreateBillRequest.memberPhones := USSDState.memberPhones state |}.

(** A bill request as a dialogue produces it: the placeholder name, a
    creator phone, an amount above zero, at least one member, every member
    matching the phone pattern. *)
Definition wellFormedRequest (r : CreateBillRequest.t) : Prop :=
  CreateBillRequest.creatorName r = js "User"
  /\ is_Some (CreateBillRequest.creatorPhone r)
  /\ (exists a, CreateBillRequest.amount r = Some a /\ gt0 a = true)
  /\ CreateBillRequest.memberPhones r <> []
  /\ Forall (fun p => isValidPhoneNumber p = true)
            (CreateBillRequest.memberPhones r).

(** What a stored session holds for the creator's name. *)
Definition placeholderName (state : USSDState.t) : Prop :=
  USSDState.creatorName state = None
  \/ USSDState.creatorName state = Some (js "User").

(** A character that cannot continue a number being read: not a digit,
    a sign, a point or an exponent mark, and no letter of "Infinity". *)
Definition cannotContinue (c : N) : bool :=
  negb (isDigit c || (c =? 0x2B) || (c =? 0x2D) || (c =? 0x2E)
        || (c =? 0x65) || (c =? 0x45)
        || (c =? 0x49) || (c =? 0x6E) || (c =? 0x66) || (c =? 0x69)
        || (c =? 0x74) || (c =? 0x79)).

(** The request with another text. *)
Definition withText (request : USSDRequest.t) (text : jsstring) : USSDRequest.t :=
  USSDRequest.mk (USSDRequest.sessionId request) (USSDRequest.serviceCode request)
    (USSDRequest.phoneNumber request) text.

(** A Bill Store that refuses a request without an amount above zero. *)
Definition pickyStore : BillStore :=
  fun r =>
    match CreateBillRequest.amount r with
    | Some a => if gt0 a then acceptingStore r else Throw (Error (js "amount"))
    | None => Throw (Error (js "amount"))
    end.

(** ** Basic facts *)

Lemma jseqb_true (a b : jsstring) : jseqb a b = true <-> a = b.
Proof. unfold jseqb. apply bool_decide_eq_true. Qed.

Lemma trim_nil : trim [] = [].
Proof. reflexivity. Qed.

Lemma isBlank_trim (text : jsstring) : isBlank text = true -> trim text = [].
Proof.
  unfold isBlank. intros H. apply orb_true_iff in H as [H | H];
    apply jseqb_true in H; [subst text; apply trim_nil | exact H].
Qed.

Lemma parseFloat_empty : parseFloat [] = S754_nan.
Proof. reflexivity. Qed.

(** *** [parseFloat] does not see the white space that [trim] removes *)

Lemma whiteSpace_not_digit c : isWhiteSpace c = true -> isDigit c = false.
Proof.
  intros Hc. destruct (isDigit c) eqn:Hd; [| reflexivity].
  unfold isDigit in Hd. unfold isWhiteSpace in Hc.
  lia.
Qed.

Lemma whiteSpace_neq c k :
  isWhiteSpace c = true -> isWhiteSpace k = false -> (c =? k) = false.
Proof.
  intros Hc Hk. destruct (N.eqb_spec c k) as [-> |]; [congruence | reflexivity].
Qed.

Lemma trimStart_split s : exists w, s = w ++ trimStart s /\ blank w.
Proof.
  induction s as [| c r (w & Hw & Hb)]; [exists []; split; reflexivity |].
  simpl. destruct (isWhiteSpace c) eqn:Hc.
  - exists (c :: w). split; [simpl; congruence |].
    unfold blank. simpl. rewrite Hc. exact Hb.
  - exists []. split; reflexivity.
Qed.

Lemma trimStart_head s c r : trimStart s = c :: r -> isWhiteSpace c = false.
Proof.
  induction s as [| d s IH]; [discriminate |]. simpl.
  destruct (isWhiteSpace d) eqn:Hd; [exact IH |]. intros [= <- _]. exact Hd.
Qed.

Lemma blank_rev w : blank w -> blank (rev w).
Proof.
  unfold blank. rewrite !forallb_forall. intros H c Hc. apply H.
  apply in_rev. exact Hc.
Qed.

Lemma trimEnd_split s : exists w, s = trimEnd s ++ w /\ blank w.
Proof.
  unfold trimEnd. destruct (trimStart_split (rev s)) as (w & Hw & Hb).
  exists (rev w). split; [| apply blank_rev, Hb].
  rewrite <- rev_app_distr, <- Hw. symmetry. apply rev_involutive.
Qed.

Lemma trimStart_trim s : trimStart (trim s) = trim s.
Proof.
  unfold trim. destruct (trimEnd_split (trimStart s)) as (w & Hw & _).
  destruct (trimEnd (trimStart s)) as [| c r] eqn:He; [reflexivity |].
  simpl in Hw. apply trimStart_head in Hw. simpl. rewrite Hw. reflexivity.
Qed.

Lemma blank_cases w :
  blank w -> w = [] \/ exists c r, w = c :: r /\ isWhiteSpace c = true.
Proof.
  destruct w as [| c r]; [left; reflexivity |]. intros Hw. right.
  unfold blank in Hw. simpl in Hw. apply andb_true_iff in Hw as [Hc _].
  eauto.
Qed.

Section TrailingBlank.
Variable w : jsstring.
Hypothesis Hw : blank w.

Lemma takeSign_blank u :
  takeSign (u ++ w) = (fst (takeSign u), snd (takeSign u) ++ w).
Proof.
  destruct u as [| c r]; simpl.
  - destruct (blank_cases w Hw) as [-> | (c & r & -> & Hc)]; [reflexivity |].
    simpl.
    rewrite !(whiteSpace_neq c _ Hc) by reflexivity. reflexivity.
  - destruct (c =? 0x2B); [reflexivity |]. destruct (c =? 0x2D); reflexivity.
Qed.

Lemma span_blank u :
  span isDigit (u ++ w) = (fst (span isDigit u), snd (span isDigit u) ++ w).
Proof.
  induction u as [| c r IH]; simpl.
  - destruct (blank_cases w Hw) as [-> | (c & r & -> & Hc)]; [reflexivity |].
    simpl.
    rewrite (whiteSpace_not_digit c Hc). reflexivity.
  - destruct (isDigit c); [| reflexivity].
    rewrite IH. destruct (span isDigit r). reflexivity.
Qed.

Lemma startsWith_blank p :
  forallb (fun c => negb (isWhiteSpace c)) p = true ->
  forall u, startsWith (u ++ w) p = startsWith u p.
Proof.
  induction p as [| a p IH]; intros Hp u; [reflexivity |].
  simpl in Hp. apply andb_true_iff in Hp as [Ha Hp].
  apply negb_true_iff in Ha.
  destruct u as [| b u]; simpl.
  - destruct (blank_cases w Hw) as [-> | (c & r & -> & Hc)]; [reflexivity |].
    simpl.
    rewrite N.eqb_sym, (whiteSpace_neq c a Hc Ha). reflexivity.
  - rewrite IH by exact Hp. reflexivity.
Qed.

Lemma fractionPart_blank r1 :
  fractionPart (r1 ++ w)
  = (fst (fractionPart r1), snd (fractionPart r1) ++ w).
Proof.
  destruct r1 as [| c r]; simpl.
  - destruct (blank_cases w Hw) as [-> | (c & r & -> & Hc)]; [reflexivity |].
    simpl.
    rewrite (whiteSpace_neq c _ Hc) by reflexivity. reflexivity.
  - destruct (c =? 0x2E); [apply span_blank | reflexivity].
Qed.

Lemma exponentPart_blank r2 : exponentPart (r2 ++ w) = exponentPart r2.
Proof.
  destruct r2 as [| c r]; simpl.
  - destruct (blank_cases w Hw) as [-> | (c & r & -> & Hc)]; [reflexivity |].
    simpl.
    rewrite !(whiteSpace_neq c _ Hc) by reflexivity. reflexivity.
  - destruct ((c =? 0x65) || (c =? 0x45)); [| reflexivity].
    rewrite takeSign_blank. destruct (takeSign r) as [neg r1]. simpl.
    rewrite span_blank. destruct (span isDigit r1). reflexivity.
Qed.

Lemma strDecimalPrefix_blank u : strDecimalPrefix (u ++ w) = strDecimalPrefix u.
Proof.
  unfold strDecimalPrefix. rewrite takeSign_blank.
  destruct (takeSign u) as [neg rest]. cbn [fst snd].
  rewrite startsWith_blank by reflexivity.
  destruct (startsWith rest (js "Infinity")); [reflexivity |].
  rewrite span_blank. destruct (span isDigit rest) as [ip r1]. cbn [fst snd].
  rewrite fractionPart_blank. destruct (fractionPart r1) as [fp r2]. cbn [fst snd].
  rewrite exponentPart_blank. reflexivity.
Qed.

End TrailingBlank.

(** The handler parses [text.trim()]; that is the value of [text] itself. *)
Lemma parseFloat_trim text : parseFloat (trim text) = parseFloat text.
Proof.
  unfold parseFloat. rewrite trimStart_trim. unfold trim.
  destruct (trimEnd_split (trimStart text)) as (w & Hsplit & Hw).
  rewrite Hsplit at 2. symmetry. apply strDecimalPrefix_blank, Hw.
Qed.

(** The test of [handleAmountStep] lets exactly the values above zero
    through, the positive infinity among them. *)
Lemma amount_guard (a : number) : isNaN a || le0 a = false <-> gt0 a = true.
Proof.
  destruct a as [s | s | | s m e]; try destruct s; simpl; split;
    intros H; try reflexivity; try discriminate H.
Qed.

Lemma gt0_cases (a : number) :
  gt0 a = true -> a = S754_infinity false \/ exists m e, a = S754_finite false m e.
Proof.
  destruct a as [s | s | | s m e]; try destruct s; simpl; intros H;
    try discriminate H; eauto.
Qed.

(** ** One turn *)

(** Case analysis along the branches of a handler. *)
Ltac handler_cases :=
  repeat match goal with
    | |- context [if ?b then _ else _] => destruct b eqn:?
    | |- context [match ?c with Normal _ => _ | Throw _ => _ end] =>
        destruct c eqn:?
    | |- context [match USSDState.amount ?s with Some _ => _ | None => _ end] =>
        destruct (USSDState.amount s) eqn:?
    end.

Section Turn.
Variable createBill : BillStore.
Variable request : USSDRequest.t.
Variable sessionStore : SessionStore.

Lemma handleAmountStep_normal state :
  exists response,
    snd (handleAmountStep request state sessionStore) = Normal response.
Proof. unfold handleAmountStep. handler_cases; eauto. Qed.

Lemma handleConfirmStep_normal state :
  exists response,
    snd (handleConfirmStep createBill request state sessionStore)
    = Normal response.
Proof. unfold handleConfirmStep. handler_cases; eauto. Qed.

Lemma catchError_normal sessionId r :
  exists response, snd (catchError sessionId r) = Normal response.
Proof. destruct r as [s [a | e]]; simpl; eauto. Qed.

Lemma processUSSDRequest_normal :
  exists response,
    snd (processUSSDRequest createBill request sessionStore) = Normal response.
Proof.
  unfold processUSSDRequest.
  destruct (USSDState.step _).
  - apply catchError_normal.
  - apply catchError_normal.
  - apply handleConfirmStep_normal.
Qed.

Lemma catchError_fst sessionId r : fst (catchError sessionId r) = fst r.
Proof. destruct r as [s [a | e]]; reflexivity. Qed.

Lemma handleAmountStep_effect state :
  USSDState.step state = AmountStep ->
  StoreEffect request state sessionStore
    (fst (handleAmountStep request state sessionStore)).
Proof.
  intros Hstep. unfold handleAmountStep.
  destruct (isBlank _).
  - simpl. rewrite Hstep. apply effect_welcome, Hstep.
  - destruct (isNaN _ || le0 _) eqn:Hguard; simpl.
    + apply effect_none.
    + eapply effect_amount; [exact Hstep | reflexivity |].
      apply amount_guard, Hguard.
Qed.

Lemma handleMembersStep_effect state :
  USSDState.step state = MembersStep ->
  StoreEffect request state sessionStore
    (fst (handleMembersStep request state sessionStore)).
Proof.
  intros Hstep. unfold handleMembersStep.
  destruct (isBlank _); [apply effect_none |].
  destruct (parsePhoneNumbers _) as [| p ps] eqn:Hphones; simpl;
    [apply effect_none |].
  assert (Heff : StoreEffect request state sessionStore
            (<[USSDRequest.sessionId request :=
                 {| USSDState.step := ConfirmStep;
                    USSDState.amount := USSDState.amount state;
                    USSDState.memberPhones := p :: ps;
                    USSDState.creatorName := USSDState.creatorName state;
                    USSDState.phoneNumber := USSDState.phoneNumber state |}]>
               sessionStore)).
  { apply effect_members; [exact Hstep | symmetry; exact Hphones | discriminate]. }
  destruct (USSDState.amount state); exact Heff.
Qed.

Lemma handleConfirmStep_effect state :
  USSDState.step state = ConfirmStep ->
  StoreEffect request state sessionStore
    (fst (handleConfirmStep createBill request state sessionStore)).
Proof.
  intros Hstep. unfold handleConfirmStep.
  destruct (jseqb _ (js "1")).
  - destruct (createBill _); simpl;
      [apply effect_delete, Hstep | apply effect_none].
  - destruct (jseqb _ (js "2")); simpl;
      [apply effect_delete, Hstep | apply effect_none].
Qed.

Lemma processUSSDRequest_effect :
  StoreEffect request (getOrCreate request sessionStore) sessionStore
    (fst (processUSSDRequest createBill request sessionStore)).
Proof.
  unfold processUSSDRequest.
  destruct (USSDState.step _) eqn:Hstep.
  - rewrite catchError_fst. apply handleAmountStep_effect, Hstep.
  - rewrite catchError_fst. apply handleMembersStep_effect, Hstep.
  - apply handleConfirmStep_effect, Hstep.
Qed.

(** A turn touches the entry of its own session id only. *)
Lemma processUSSDRequest_other (other : jsstring) :
  other <> USSDRequest.sessionId request ->
  fst (processUSSDRequest createBill request sessionStore) !! other
  = sessionStore !! other.
Proof.
  intros Hne.
  destruct processUSSDRequest_effect; try reflexivity;
    try (apply lookup_insert_ne; congruence).
  apply lookup_delete_ne; congruence.
Qed.

Lemma getOrCreate_stored state :
  sessionStore !! USSDRequest.sessionId request = Some state ->
  getOrCreate request sessionStore = state.
Proof. unfold getOrCreate. intros ->. reflexivity. Qed.

Lemma getOrCreate_fresh :
  sessionStore !! USSDRequest.sessionId request = None ->
  getOrCreate request sessionStore
  = freshState (USSDRequest.phoneNumber request).
Proof. unfold getOrCreate. intros ->. reflexivity. Qed.

End Turn.

(** ** Closing the dialogue *)

(** When a turn answers [END], the session is gone, unless the Bill Store
    failed on a confirmation or the summary could not be built. *)
Lemma END_response_cases createBill request sessionStore sessionStore' response :
  processUSSDRequest createBill request sessionStore
  = (sessionStore', Normal response) ->
  USSDResponse.status response = END ->
  let state := getOrCreate request sessionStore in
  sessionStore' !! USSDRequest.sessionId request = None
  \/ (USSDState.step state = ConfirmStep
      /\ USSDRequest.text request = js "1"
      /\ sessionStore' = sessionStore
      /\ exists e,
           createBill
             {| CreateBillRequest.creatorPhone := USSDState.phoneNumber state;
                CreateBillRequest.creatorName := orUser (USSDState.creatorName state);
                CreateBillRequest.amount := USSDState.amount state;
                CreateBillRequest.memberPhones := USSDState.memberPhones state |}
           = Throw e)
  \/ (USSDState.step state = MembersStep /\ USSDState.amount state = None).
Proof.
  intros Hrun Hend state. revert Hrun. unfold processUSSDRequest. fold state.
  destruct (USSDState.step state) eqn:Hstep.
  - unfold handleAmountStep.
    destruct (isBlank _); [simpl; intros [= <- <-]; discriminate Hend |].
    destruct (isNaN _ || le0 _); simpl; intros [= <- <-]; discriminate Hend.
  - unfold handleMembersStep.
    destruct (isBlank _); [simpl; intros [= <- <-]; discriminate Hend |].
    destruct (length _ =? 0)%nat; [simpl; intros [= <- <-]; discriminate Hend |].
    destruct (USSDState.amount state) eqn:Hamount; simpl; intros [= <- <-];
      [discriminate Hend | right; right; split; reflexivity].
  - unfold handleConfirmStep.
    destruct (jseqb _ (js "1")) eqn:Hone.
    + apply jseqb_true in Hone.
      destruct (createBill _) as [bill | e] eqn:Hbill; intros [= <- <-].
      * left. apply lookup_delete_eq.
      * right; left. repeat split; try assumption. exists e. reflexivity.
    + destruct (jseqb _ (js "2")); intros [= <- <-];
        [left; apply lookup_delete_eq | discriminate Hend].
Qed.

(** A failed bill creation answers [END] and leaves the store as it was. *)
Lemma failed_confirmation createBill request sessionStore state e :
  sessionStore !! USSDRequest.sessionId request = Some state ->
  USSDState.step state = ConfirmStep ->
  USSDRequest.text request = js "1" ->
  createBill
    {| CreateBillRequest.creatorPhone := USSDState.phoneNumber state;
       CreateBillRequest.creatorName := orUser (USSDState.creatorName state);
       CreateBillRequest.amount := USSDState.amount state;
       CreateBillRequest.memberPhones := USSDState.memberPhones state |}
  = Throw e ->
  processUSSDRequest createBill request sessionStore
  = (sessionStore,
     Normal (createResponse (USSDRequest.sessionId request)
               (crossMark ++ js " Failed to create bill. Please try again later.")
               END)).
Proof.
  intros Hstored Hstep Htext Hfail. unfold processUSSDRequest.
  rewrite (getOrCreate_stored _ _ _ Hstored), Hstep.
  unfold handleConfirmStep. rewrite Htext. simpl. rewrite Hfail. reflexivity.
Qed.

(** C1, at the input where the code departs from it: a dialogue reaches
    the confirmation step, the user confirms with "1" and the Bill Store
    fails.  The response has status [END], yet the store is unchanged and
    still holds the session, at the confirmation step. *)
Theorem failed_bill_creation_keeps_session :
  exists response,
    processUSSDRequest failingStore (sampleRequest "s1" "1") storeAtConfirm
    = (storeAtConfirm, Normal response)
    /\ USSDResponse.status response = END
    /\ storeAtConfirm !! js "s1" = Some stateAtConfirm
    /\ reachable storeAtConfirm.
Proof.
  eexists. split; [vm_compute; reflexivity |].
  split; [reflexivity |]. split; [vm_compute; reflexivity |].
  apply reach_turn, reach_turn, reach_start.
Qed.

(** ** The service code *)

(** C2, as stated, fails: a request carrying the service code "*384#" is
    answered with another service code. *)
Lemma serviceCode_not_echoed :
  exists response,
    snd (processUSSDRequest acceptingStore (sampleRequest "s1" "") ∅)
    = Normal response
    /\ USSDResponse.serviceCode response
       <> USSDRequest.serviceCode (sampleRequest "s1" "").
Proof.
  eexists. split; [vm_compute; reflexivity |]. vm_compute. discriminate.
Qed.

Lemma createResponse_serviceCode sessionId message status :
  USSDResponse.serviceCode (createResponse sessionId message status) = js "*123#".
Proof. reflexivity. Qed.

Lemma handleAmountStep_serviceCode request state sessionStore response :
  snd (handleAmountStep request state sessionStore) = Normal response ->
  USSDResponse.serviceCode response = js "*123#".
Proof.
  unfold handleAmountStep. handler_cases; intros [= <-]; reflexivity.
Qed.

Lemma handleMembersStep_serviceCode request state sessionStore response :
  snd (handleMembersStep request state sessionStore) = Normal response ->
  USSDResponse.serviceCode response = js "*123#".
Proof.
  unfold handleMembersStep.
  handler_cases; first [discriminate | intros [= <-]; reflexivity].
Qed.

Lemma handleConfirmStep_serviceCode createBill request state sessionStore response :
  snd (handleConfirmStep createBill request state sessionStore) = Normal response ->
  USSDResponse.serviceCode response = js "*123#".
Proof.
  unfold handleConfirmStep. handler_cases; intros [= <-]; reflexivity.
Qed.

Lemma catchError_serviceCode sessionId r response :
  (forall response', snd r = Normal response' ->
     USSDResponse.serviceCode response' = js "*123#") ->
  snd (catchError sessionId r) = Normal response ->
  USSDResponse.serviceCode response = js "*123#".
Proof.
  destruct r as [s [a | e]]; simpl; intros Hr.
  - apply Hr.
  - intros [= <-]. reflexivity.
Qed.

Lemma processUSSDRequest_serviceCode createBill request sessionStore response :
  snd (processUSSDRequest createBill request sessionStore) = Normal response ->
  USSDResponse.serviceCode response = js "*123#".
Proof.
  unfold processUSSDRequest.
  destruct (USSDState.step _).
  - apply catchError_serviceCode. intros r. apply handleAmountStep_serviceCode.
  - apply catchError_serviceCode. intros r. apply handleMembersStep_serviceCode.
  - apply handleConfirmStep_serviceCode.
Qed.

(** C2, amended: every turn is answered, and the service code of the
    answer is the constant "*123#" whatever the request carries; it is the
    request's own code exactly when that code is "*123#". *)
Theorem serviceCode_constant createBill request sessionStore :
  exists response,
    snd (processUSSDRequest createBill request sessionStore) = Normal response
    /\ USSDResponse.serviceCode response = js "*123#"
    /\ (USSDResponse.serviceCode response = USSDRequest.serviceCode request
        <-> USSDRequest.serviceCode request = js "*123#").
Proof.
  destruct (processUSSDRequest_normal createBill request sessionStore)
    as [response Hresponse].
  exists response. split; [exact Hresponse |].
  pose proof (processUSSDRequest_serviceCode _ _ _ _ Hresponse) as Hcode.
  split; [exact Hcode |]. rewrite Hcode. split; congruence.
Qed.

(** The route sends the engine's response as it is. *)
Lemma ussdRoute_serviceCode createBill body sessionStore sessionStore' response :
  ussdRoute createBill body sessionStore = (sessionStore', Send response) ->
  USSDResponse.serviceCode response = js "*123#".
Proof.
  unfold ussdRoute.
  destruct (ussdRequestSchema body) as [request |]; [| discriminate].
  pose proof (processUSSDRequest_serviceCode createBill request sessionStore) as Hcode.
  destruct (processUSSDRequest createBill request sessionStore) as [s [r | e]];
    [| discriminate].
  intros [= _ <-]. apply Hcode. reflexivity.
Qed.

(** ** Phone numbers *)

(** C5, as stated, fails: the bare-country-code form is not accepted as
    valid. *)
Lemma bare_country_code_rejected :
  ~ (validatePhoneNumber (js "0712345678") = true
     /\ validatePhoneNumber (js "+255712345678") = true
     /\ validatePhoneNumber (js "255712345678") = true
     /\ formatPhoneNumber (js "0712345678") = formatPhoneNumber (js "+255712345678")
     /\ formatPhoneNumber (js "+255712345678") = formatPhoneNumber (js "255712345678")).
Proof. intros (_ & _ & H & _). vm_compute in H. discriminate H. Qed.

(** C5, amended: [formatPhoneNumber] maps the local form, the
    international form and the bare-country-code form to the one result
    "+255712345678", which [validatePhoneNumber] accepts;
    [validatePhoneNumber] accepts the local and the international form and
    rejects the bare-country-code form. *)
Theorem three_forms_one_format :
  formatPhoneNumber (js "0712345678") = js "+255712345678"
  /\ formatPhoneNumber (js "+255712345678") = js "+255712345678"
  /\ formatPhoneNumber (js "255712345678") = js "+255712345678"
  /\ validatePhoneNumber (js "+255712345678") = true
  /\ validatePhoneNumber (js "0712345678") = true
  /\ validatePhoneNumber (js "255712345678") = false.
Proof. repeat split; vm_compute; reflexivity. Qed.

(** ** The amount step *)

(** An amount that is NaN or not above zero is refused: same state, same
    store, the re-prompt, [CON]. *)
Lemma invalid_amount_reprompts createBill request sessionStore :
  USSDState.step (getOrCreate request sessionStore) = AmountStep ->
  isBlank (USSDRequest.text request) = false ->
  gt0 (parseFloat (USSDRequest.text request)) = false ->
  processUSSDRequest createBill request sessionStore
  = (sessionStore,
     Normal (createResponse (USSDRequest.sessionId request)
               invalidAmountMessage CON)).
Proof.
  intros Hstep Hblank Hgt. unfold processUSSDRequest. rewrite Hstep.
  unfold handleAmountStep. rewrite Hblank, parseFloat_trim.
  destruct (isNaN _ || le0 _) eqn:Hguard; [reflexivity |].
  apply amount_guard in Hguard. congruence.
Qed.

(** C4, at the input where the code departs from it: "Infinity" is not
    blank and does not parse to a finite number, yet it is not refused.
    The session is stored at the members step with an infinite amount and
    the response is the prompt for phone numbers. *)
Theorem infinite_amount_is_accepted :
  isBlank (js "Infinity") = false
  /\ parseFloat (js "Infinity") = S754_infinity false
  /\ isFinite (S754_infinity false) = false
  /\ exists response,
       processUSSDRequest acceptingStore (sampleRequest "s1" "Infinity") ∅
       = (<[js "s1" :=
              {| USSDState.step := MembersStep;
                 USSDState.amount := Some (S754_infinity false);
                 USSDState.memberPhones := [];
                 USSDState.creatorName := None;
                 USSDState.phoneNumber := Some (js "+255700000000") |}]> ∅,
          Normal response)
       /\ USSDResponse.status response = CON
       /\ USSDResponse.message response <> invalidAmountMessage.
Proof.
  split; [reflexivity |]. split; [reflexivity |]. split; [reflexivity |].
  eexists. split; [vm_compute; reflexivity |].
  split; [reflexivity |]. vm_compute. discriminate.
Qed.

(** C6: at the amount step (a stored session at that step, or no stored
    session), a text that parses to a finite number above zero stores the
    session at the members step with exactly the parsed number as its
    amount, the other fields unchanged, and the response continues the
    dialogue.  The handler parses [text.trim()], which has the value of
    [text]. *)
Theorem valid_amount_advances createBill request sessionStore a :
  USSDState.step (getOrCreate request sessionStore) = AmountStep ->
  parseFloat (USSDRequest.text request) = a ->
  isFinite a = true ->
  gt0 a = true ->
  exists response,
    processUSSDRequest createBill request sessionStore
    = (<[USSDRequest.sessionId request :=
           {| USSDState.step := MembersStep;
              USSDState.amount := Some a;
              USSDState.memberPhones :=
                USSDState.memberPhones (getOrCreate request sessionStore);
              USSDState.creatorName :=
                USSDState.creatorName (getOrCreate request sessionStore);
              USSDState.phoneNumber :=
                USSDState.phoneNumber (getOrCreate request sessionStore) |}]>
         sessionStore,
       Normal response)
    /\ USSDResponse.status response = CON.
Proof.
  intros Hstep Hparse _ Hgt. rewrite <- parseFloat_trim in Hparse.
  assert (Hblank : isBlank (USSDRequest.text request) = false).
  { destruct (isBlank _) eqn:Hb; [| reflexivity].
    apply isBlank_trim in Hb. rewrite Hb, parseFloat_empty in Hparse.
    subst a. discriminate Hgt. }
  unfold processUSSDRequest. rewrite Hstep.
  unfold handleAmountStep. rewrite Hblank, Hparse.
  apply amount_guard in Hgt. rewrite Hgt. simpl.
  eexists. split; reflexivity.
Qed.

(** A first turn with the text " 5000 ". *)
Lemma valid_amount_advances_witness :
  USSDState.step (getOrCreate (sampleRequest "s1" " 5000 ") ∅) = AmountStep
  /\ parseFloat (js " 5000 ") = fiveThousand
  /\ isFinite fiveThousand = true
  /\ gt0 fiveThousand = true
  /\ exists response,
       processUSSDRequest acceptingStore (sampleRequest "s1" " 5000 ") ∅
       = (<[js "s1" := stateAtMembers]> ∅, Normal response)
       /\ USSDResponse.status response = CON.
Proof.
  repeat (split; [reflexivity |]).
  exact (valid_amount_advances acceptingStore (sampleRequest "s1" " 5000 ") ∅
           fiveThousand eq_refl eq_refl eq_refl eq_refl).
Defined.

(** ** The members step *)

Lemma parsePhoneNumbers_entries text :
  Forall (fun p => isValidPhoneNumber p = true
                   /\ exists entry, In entry (split 0x2C text) /\ p = trim entry)
         (parsePhoneNumbers text).
Proof.
  apply List.Forall_forall. intros p Hp. unfold parsePhoneNumbers in Hp.
  apply List.filter_In in Hp as [Hin Hvalid]. split; [exact Hvalid |].
  apply List.in_map_iff in Hin as (entry & <- & Hentry). eauto.
Qed.

(** C3, as stated, fails: a member typed in the local form is stored in
    the local form, not in the international one. *)
Lemma local_member_not_normalized :
  storeAtMembers !! js "s1" = Some stateAtMembers
  /\ fst (processUSSDRequest acceptingStore membersRequest storeAtMembers)
       !! js "s1" = Some stateAtConfirm
  /\ USSDState.memberPhones stateAtConfirm = [js "0712345678"; js "0698765432"]
  /\ normalizedMembers (USSDRequest.text membersRequest)
     = [js "+255712345678"; js "+255698765432"]
  /\ USSDState.memberPhones stateAtConfirm
     <> normalizedMembers (USSDRequest.text membersRequest).
Proof.
  repeat split; try (vm_compute; reflexivity). vm_compute. discriminate.
Qed.

(** C3, amended: when a turn takes a stored session from the members step
    to the confirmation step, the stored [memberPhones] is the list of the
    entries of the comma-separated text, each trimmed of surrounding white
    space, that match the phone pattern; each is kept as typed, without
    conversion to the international form, in the original order; entries
    that do not match are dropped; the list is not empty. *)
Theorem memberPhones_kept_as_typed createBill request sessionStore state state' :
  sessionStore !! USSDRequest.sessionId request = Some state ->
  USSDState.step state = MembersStep ->
  fst (processUSSDRequest createBill request sessionStore)
    !! USSDRequest.sessionId request = Some state' ->
  USSDState.step state' = ConfirmStep ->
  USSDState.memberPhones state'
  = List.filter isValidPhoneNumber (map trim (split 0x2C (USSDRequest.text request)))
  /\ USSDState.memberPhones state' <> []
  /\ Forall (fun p => isValidPhoneNumber p = true
                      /\ exists entry,
                           In entry (split 0x2C (USSDRequest.text request))
                           /\ p = trim entry)
            (USSDState.memberPhones state').
Proof.
  intros Hstored Hstep Hafter Hstep'.
  pose proof (processUSSDRequest_effect createBill request sessionStore) as Heff.
  rewrite (getOrCreate_stored _ _ _ Hstored) in Heff.
  inversion Heff as [Hsame | Hs Hsame | a Hs _ _ Hsame | phones _ Hphones Hne Hsame | Hs Hsame];
    try congruence.
  rewrite <- Hsame, lookup_insert_eq in Hafter.
  injection Hafter as <-. simpl. subst phones.
  split; [reflexivity |]. split; [exact Hne |].
  apply parsePhoneNumbers_entries.
Qed.

(** The members turn with the text "0712345678, notanumber, 0698765432". *)
Lemma memberPhones_kept_as_typed_witness :
  storeAtMembers !! USSDRequest.sessionId membersRequest = Some stateAtMembers
  /\ USSDState.step stateAtMembers = MembersStep
  /\ fst (processUSSDRequest acceptingStore membersRequest storeAtMembers)
       !! USSDRequest.sessionId membersRequest = Some stateAtConfirm
  /\ USSDState.step stateAtConfirm = ConfirmStep
  /\ USSDState.memberPhones stateAtConfirm
     = List.filter isValidPhoneNumber
         (map trim (split 0x2C (USSDRequest.text membersRequest)))
  /\ USSDState.memberPhones stateAtConfirm <> [].
Proof.
  assert (H1 : storeAtMembers !! USSDRequest.sessionId membersRequest
               = Some stateAtMembers) by (vm_compute; reflexivity).
  assert (H2 : fst (processUSSDRequest acceptingStore membersRequest storeAtMembers)
                 !! USSDRequest.sessionId membersRequest = Some stateAtConfirm)
    by (vm_compute; reflexivity).
  destruct (memberPhones_kept_as_typed acceptingStore membersRequest
              storeAtMembers stateAtMembers stateAtConfirm
              H1 eq_refl H2 eq_refl) as (Hlist & Hne & _).
  repeat split; assumption.
Defined.

(** ** Cancelling *)

(** A turn on an id the store does not hold is the amount step on a fresh
    state. *)
Lemma processUSSDRequest_unseen createBill request sessionStore :
  sessionStore !! USSDRequest.sessionId request = None ->
  processUSSDRequest createBill request sessionStore
  = handleAmountStep request (freshState (USSDRequest.phoneNumber request))
      sessionStore.
Proof.
  intros Hnone. unfold processUSSDRequest.
  rewrite (getOrCreate_fresh _ _ Hnone). simpl.
  destruct (handleAmountStep_normal request sessionStore
              (freshState (USSDRequest.phoneNumber request))) as [r Hr].
  destruct (handleAmountStep _ _ _) as [s c]. simpl in Hr. subst c. reflexivity.
Qed.

(** C7: at the confirmation step, whatever the stored amount and members,
    the text "2" deletes the session and the response has status [END].
    Any later request with the same session id starts from the fresh state
    (amount step, no amount, no members, the new caller's phone number):
    it is handled by the amount step, and a first turn with blank text
    stores exactly the welcomed fresh session. *)
Theorem cancel_removes_session createBill request sessionStore state :
  sessionStore !! USSDRequest.sessionId request = Some state ->
  USSDState.step state = ConfirmStep ->
  USSDRequest.text request = js "2" ->
  let sessionStore' := delete (USSDRequest.sessionId request) sessionStore in
  (exists response,
     processUSSDRequest createBill request sessionStore
     = (sessionStore', Normal response)
     /\ USSDResponse.status response = END)
  /\ sessionStore' !! USSDRequest.sessionId request = None
  /\ forall createBill' request',
       USSDRequest.sessionId request' = USSDRequest.sessionId request ->
       getOrCreate request' sessionStore'
       = freshState (USSDRequest.phoneNumber request')
       /\ processUSSDRequest createBill' request' sessionStore'
          = handleAmountStep request'
              (freshState (USSDRequest.phoneNumber request')) sessionStore'
       /\ (isBlank (USSDRequest.text request') = true ->
           fst (processUSSDRequest createBill' request' sessionStore')
             !! USSDRequest.sessionId request
           = Some {| USSDState.step := AmountStep;
                     USSDState.amount := None;
                     USSDState.memberPhones := [];
                     USSDState.creatorName := Some (js "User");
                     USSDState.phoneNumber :=
                       Some (USSDRequest.phoneNumber request') |}).
Proof.
  intros Hstored Hstep Htext sessionStore'.
  assert (Hgone : sessionStore' !! USSDRequest.sessionId request = None)
    by apply lookup_delete_eq.
  split; [| split; [exact Hgone |]].
  - unfold processUSSDRequest.
    rewrite (getOrCreate_stored _ _ _ Hstored), Hstep.
    unfold handleConfirmStep. rewrite Htext. simpl.
    eexists. split; reflexivity.
  - intros createBill' request' Hid. rewrite <- Hid in Hgone.
    split; [apply getOrCreate_fresh, Hgone |].
    split; [apply processUSSDRequest_unseen, Hgone |].
    intros Hblank. rewrite (processUSSDRequest_unseen _ _ _ Hgone).
    unfold handleAmountStep. rewrite Hblank. simpl.
    rewrite <- Hid. apply lookup_insert_eq.
Qed.

(** ** The step only moves forward *)

Lemma forward_same (o : option USSDState.t) : forward o o.
Proof. destruct o as [s |]; simpl; auto. Qed.

Lemma freshState_step phoneNumber :
  USSDState.step (freshState phoneNumber) = AmountStep.
Proof. reflexivity. Qed.

(** One turn moves every session forward. *)
Lemma processUSSDRequest_forward createBill request sessionStore sessionId :
  forward (sessionStore !! sessionId)
          (fst (processUSSDRequest createBill request sessionStore) !! sessionId).
Proof.
  destruct (decide (sessionId = USSDRequest.sessionId request)) as [-> | Hne];
    [| rewrite processUSSDRequest_other by exact Hne; apply forward_same].
  pose proof (processUSSDRequest_effect createBill request sessionStore) as Heff.
  destruct (sessionStore !! USSDRequest.sessionId request) as [state |] eqn:Hstored.
  - rewrite (getOrCreate_stored _ _ _ Hstored) in Heff.
    destruct Heff as [| Hs | a Hs _ _ | phones Hs _ _ | Hs];
      rewrite ?Hstored, ?lookup_insert_eq, ?lookup_delete_eq; simpl;
      rewrite ?Hs; simpl;
      first [reflexivity | split; [lia | congruence]].
  - rewrite (getOrCreate_fresh _ _ Hstored) in Heff.
    destruct Heff as [| Hs | a Hs _ _ | phones Hs _ _ | Hs];
      try discriminate Hs;
      rewrite ?Hstored, ?lookup_insert_eq; simpl; try exact I; discriminate.
Qed.

Lemma history_chain (turns : list Turn) :
  forall sessionStore sessionId,
    chain forward (history turns sessionStore sessionId).
Proof.
  induction turns as [| t rest IH]; intros sessionStore sessionId; simpl;
    [exact I |].
  specialize (IH (runTurn t sessionStore) sessionId).
  destruct rest as [| t' rest']; simpl in *;
    (split; [apply processUSSDRequest_forward | exact IH]).
Qed.

(** C8: along every sequence of turns and for every session id, what the
    store holds for the id only moves forward: a stored session keeps or
    raises its step (amount, members, confirmation), a session at the
    confirmation step is either left as it is or deleted, no session is
    deleted from another step, and none appears at the confirmation step.
    Within one turn, a session written back is never at an earlier step
    than the state the turn read. *)
Theorem step_only_moves_forward (turns : list Turn) createBill request
    sessionStore sessionId :
  chain forward (history turns sessionStore sessionId)
  /\ match fst (processUSSDRequest createBill request sessionStore)
           !! USSDRequest.sessionId request with
     | Some written =>
         (rank (USSDState.step (getOrCreate request sessionStore))
          <= rank (USSDState.step written))%nat
     | None => True
     end.
Proof.
  split; [apply history_chain |].
  pose proof (processUSSDRequest_forward createBill request sessionStore
                (USSDRequest.sessionId request)) as Hfw.
  unfold getOrCreate.
  destruct (fst _ !! _) as [written |]; [| exact I].
  destruct (sessionStore !! _) as [state |]; simpl in *; [tauto | lia].
Qed.

(** Between two points of a history where the session is never absent, the
    step does not go down. *)
Lemma chain_lookup {A : Type} (R : A -> A -> Prop) (l : list A) :
  chain R l ->
  forall k a b, l !! k = Some a -> l !! S k = Some b -> R a b.
Proof.
  induction l as [| x l IH]; intros Hchain k a b Ha Hb; [discriminate Ha |].
  destruct l as [| y l']; [discriminate Hb |].
  destruct Hchain as [Hxy Hrest].
  destruct k as [| k]; simpl in *.
  - injection Ha as <-. injection Hb as <-. exact Hxy.
  - eapply IH; eassumption.
Qed.

Lemma history_monotone (turns : list Turn) sessionStore sessionId n i s s' :
  let h := history turns sessionStore sessionId in
  h !! i = Some (Some s) ->
  h !! (i + n)%nat = Some (Some s') ->
  (forall k, (i <= k <= i + n)%nat -> exists sk, h !! k = Some (Some sk)) ->
  (rank (USSDState.step s) <= rank (USSDState.step s'))%nat.
Proof.
  intros h. revert s'. induction n as [| n IH]; intros s' Hi Hj Hall.
  - rewrite Nat.add_0_r in Hj. rewrite Hi in Hj. injection Hj as <-. lia.
  - destruct (Hall (i + n)%nat ltac:(lia)) as [sk Hk].
    assert (Hle : (rank (USSDState.step s) <= rank (USSDState.step sk))%nat).
    { apply IH; [exact Hi | exact Hk |]. intros k Hk'. apply Hall. lia. }
    replace (i + S n)%nat with (S (i + n)) in Hj by lia.
    pose proof (chain_lookup forward h (history_chain _ _ _) _ _ _ Hk Hj) as [Hstep _].
    lia.
Qed.

(** ** Stored sessions are well formed *)

Lemma wellFormed_getOrCreate request sessionStore :
  (forall sessionId state,
     sessionStore !! sessionId = Some state -> wellFormed state) ->
  wellFormed (getOrCreate request sessionStore).
Proof.
  intros Hwf. unfold getOrCreate.
  destruct (sessionStore !! _) as [state |] eqn:Hstored; simpl.
  - eapply Hwf, Hstored.
  - split; [eexists; reflexivity | intros H; contradiction H; reflexivity].
Qed.

Lemma wellFormed_preserved createBill request sessionStore :
  (forall sessionId state,
     sessionStore !! sessionId = Some state -> wellFormed state) ->
  forall sessionId state,
    fst (processUSSDRequest createBill request sessionStore) !! sessionId
    = Some state ->
    wellFormed state.
Proof.
  intros Hwf sessionId state.
  destruct (decide (sessionId = USSDRequest.sessionId request)) as [-> | Hne];
    [| rewrite processUSSDRequest_other by exact Hne; apply Hwf].
  pose proof (wellFormed_getOrCreate request sessionStore Hwf) as [Hphone Hamount].
  pose proof (processUSSDRequest_effect createBill request sessionStore) as Heff.
  destruct Heff as [| Hs | a Hs Ha Hgt | phones Hs _ _ | Hs].
  - apply Hwf.
  - rewrite lookup_insert_eq. intros [= <-]. split; simpl.
    + eexists; reflexivity.
    + intros H; contradiction H; reflexivity.
  - rewrite lookup_insert_eq. intros [= <-]. split; simpl.
    + exact Hphone.
    + intros _. exists a. split; [reflexivity | exact Hgt].
  - rewrite lookup_insert_eq. intros [= <-]. split; simpl.
    + exact Hphone.
    + intros _. apply Hamount. rewrite Hs. discriminate.
  - rewrite lookup_delete_eq. discriminate.
Qed.

Lemma reachable_wellFormed sessionStore :
  reachable sessionStore ->
  forall sessionId state,
    sessionStore !! sessionId = Some state -> wellFormed state.
Proof.
  induction 1 as [| createBill request sessionStore _ IH | sessionStore _ _].
  - intros sessionId state H. rewrite lookup_empty in H. discriminate H.
  - apply wellFormed_preserved, IH.
  - intros sessionId state H. unfold clearAllSessions in H.
    rewrite lookup_empty in H. discriminate H.
Qed.

(** In a reachable store every session at the confirmation step holds
    checked members. *)
Lemma reachable_membersChecked sessionStore :
  reachable sessionStore ->
  forall sessionId state,
    sessionStore !! sessionId = Some state -> membersChecked state.
Proof.
  induction 1 as [| createBill request sessionStore _ IH | sessionStore _ _];
    intros sessionId state;
    try (unfold clearAllSessions; rewrite lookup_empty; discriminate).
  destruct (decide (sessionId = USSDRequest.sessionId request)) as [-> | Hne];
    [| rewrite processUSSDRequest_other by exact Hne; apply IH].
  destruct (processUSSDRequest_effect createBill request sessionStore)
    as [| Hs | a Hs _ _ | phones Hs Hphones Hne | Hs];
    rewrite ?lookup_insert_eq, ?lookup_delete_eq;
    try apply IH; try discriminate;
    intros [= <-]; unfold membersChecked; simpl; try discriminate.
  intros _. split; [exact Hne |]. subst phones.
  eapply Forall_impl; [apply parsePhoneNumbers_entries |].
  intros p [Hp _]. exact Hp.
Qed.

(** With a defined amount the summary is built and nothing is thrown. *)
Lemma handleMembersStep_defined request state sessionStore a :
  USSDState.amount state = Some a ->
  exists response,
    snd (handleMembersStep request state sessionStore) = Normal response.
Proof.
  intros Ha. unfold handleMembersStep.
  destruct (isBlank _); [eauto |].
  destruct (length _ =? 0)%nat; [eauto |].
  rewrite Ha. eauto.
Qed.

(** C9: in every store the service can reach, every stored session has a
    defined phone number, and one at the members or the confirmation step
    has a defined amount above zero; so, on a reachable store, no handler
    throws on the state of a stored session: [state.amount!] and
    [state.phoneNumber!] are never undefined where they are used. *)
Theorem stored_sessions_well_formed sessionStore sessionId state :
  reachable sessionStore ->
  sessionStore !! sessionId = Some state ->
  is_Some (USSDState.phoneNumber state)
  /\ (USSDState.step state = MembersStep \/ USSDState.step state = ConfirmStep ->
      exists a, USSDState.amount state = Some a /\ gt0 a = true)
  /\ forall createBill request,
       exists response,
         snd (handleStep createBill request state sessionStore) = Normal response.
Proof.
  intros Hreach Hstored.
  destruct (reachable_wellFormed _ Hreach _ _ Hstored) as [Hphone Hamount].
  split; [exact Hphone |]. split.
  - intros Hstep. apply Hamount. destruct Hstep as [-> | ->]; discriminate.
  - intros createBill request. unfold handleStep.
    destruct (USSDState.step state) eqn:Hstep.
    + apply handleAmountStep_normal.
    + destruct Hamount as (a & Ha & _); [discriminate |].
      eapply handleMembersStep_defined, Ha.
    + apply handleConfirmStep_normal.
Qed.

(** On a reachable store, a turn answered with [END] leaves no entry for
    its session id, unless the Bill Store failed on the confirmation. *)
Lemma END_closes_session createBill request sessionStore sessionStore' response :
  reachable sessionStore ->
  processUSSDRequest createBill request sessionStore
  = (sessionStore', Normal response) ->
  USSDResponse.status response = END ->
  sessionStore' !! USSDRequest.sessionId request = None
  \/ (USSDState.step (getOrCreate request sessionStore) = ConfirmStep
      /\ USSDRequest.text request = js "1"
      /\ sessionStore' = sessionStore).
Proof.
  intros Hreach Hrun Hend.
  destruct (END_response_cases _ _ _ _ _ Hrun Hend)
    as [Hgone | [(Hstep & Htext & Hsame & _) | [Hstep Hnone]]];
    [left; exact Hgone | right; auto |].
  pose proof (wellFormed_getOrCreate request sessionStore
                (reachable_wellFormed _ Hreach)) as [_ Hamount].
  destruct Hamount as (a & Ha & _); [rewrite Hstep; discriminate | congruence].
Qed.

(** ** Totality *)

(** C10: every call of [processUSSDRequest] completes normally with a
    response, whatever the request, the store and the behaviour of the
    Bill Store.  When the handler of the step throws, the store is as the
    handler left it and the response has the status [END], the message
    'An error occurred. Please try again.', the session id of the request
    and the service code '*123#'; when the handler returns, its response
    is returned unchanged.  The handler throws exactly when the session
    is at the members step without an amount and the text holds a valid
    phone number; the type [USSDState] allows such a session ([amount] is
    optional), but no store the service reaches holds one. *)
Theorem processUSSDRequest_total createBill request sessionStore :
  (exists response,
     snd (processUSSDRequest createBill request sessionStore) = Normal response)
  /\ (forall sessionStore' e,
        handleStep createBill request (getOrCreate request sessionStore)
          sessionStore
        = (sessionStore', Throw e) ->
        exists response,
          processUSSDRequest createBill request sessionStore
          = (sessionStore', Normal response)
          /\ USSDResponse.status response = END
          /\ USSDResponse.message response
             = js "An error occurred. Please try again."
          /\ USSDResponse.sessionId response = USSDRequest.sessionId request
          /\ USSDResponse.serviceCode response = js "*123#")
  /\ (forall sessionStore' response,
        handleStep createBill request (getOrCreate request sessionStore)
          sessionStore
        = (sessionStore', Normal response) ->
        processUSSDRequest createBill request sessionStore
        = (sessionStore', Normal response))
  /\ ((exists sessionStore' e,
         handleStep createBill request (getOrCreate request sessionStore)
           sessionStore
         = (sessionStore', Throw e))
      <-> USSDState.step (getOrCreate request sessionStore) = MembersStep
          /\ USSDState.amount (getOrCreate request sessionStore) = None
          /\ isBlank (USSDRequest.text request) = false
          /\ parsePhoneNumbers (USSDRequest.text request) <> [])
  /\ (reachable sessionStore ->
      exists response,
        snd (handleStep createBill request (getOrCreate request sessionStore)
               sessionStore)
        = Normal response).
Proof.
  split; [apply processUSSDRequest_normal |].
  split.
  { intros sessionStore' e. unfold handleStep, processUSSDRequest.
    destruct (USSDState.step _).
    - intros ->. eexists. repeat split; reflexivity.
    - intros ->. eexists. repeat split; reflexivity.
    - intros Hthrow.
      destruct (handleConfirmStep_normal createBill request sessionStore
                  (getOrCreate request sessionStore)) as [r Hr].
      rewrite Hthrow in Hr. discriminate Hr. }
  split.
  { intros sessionStore' response. unfold handleStep, processUSSDRequest.
    destruct (USSDState.step _); intros ->; reflexivity. }
  split.
  { unfold handleStep.
    destruct (USSDState.step (getOrCreate request sessionStore)).
    - split.
      + intros (sessionStore' & e & Hthrow).
        destruct (handleAmountStep_normal request sessionStore
                    (getOrCreate request sessionStore)) as [r Hr].
        rewrite Hthrow in Hr. discriminate Hr.
      + intros [Hstep _]. discriminate Hstep.
    - unfold handleMembersStep.
      destruct (isBlank (USSDRequest.text request)).
      { split; [intros (? & ? & H); discriminate H
               | intros (_ & _ & H & _); discriminate H]. }
      destruct (parsePhoneNumbers (USSDRequest.text request)) as [| p ps].
      { split; [intros (? & ? & H); discriminate H
               | intros (_ & _ & _ & H); contradiction H; reflexivity]. }
      cbn [length Nat.eqb].
      destruct (USSDState.amount (getOrCreate request sessionStore)).
      { split; [intros (? & ? & H); discriminate H
               | intros (_ & H & _); discriminate H]. }
      split; [intros _; repeat split; discriminate | intros _; eauto].
    - split.
      + intros (sessionStore' & e & Hthrow).
        destruct (handleConfirmStep_normal createBill request sessionStore
                    (getOrCreate request sessionStore)) as [r Hr].
        rewrite Hthrow in Hr. discriminate Hr.
      + intros [Hstep _]. discriminate Hstep. }
  intros Hreach.
  pose proof (wellFormed_getOrCreate request sessionStore
                (reachable_wellFormed _ Hreach)) as [_ Hamount].
  unfold handleStep.
  destruct (USSDState.step (getOrCreate request sessionStore)) eqn:Hstep.
  - apply handleAmountStep_normal.
  - destruct Hamount as (a & Ha & _); [discriminate |].
    eapply handleMembersStep_defined, Ha.
  - apply handleConfirmStep_normal.
Qed.

(** The route never answers with the status 500. *)
Lemma ussdRoute_never_500 createBill body sessionStore :
  snd (ussdRoute createBill body sessionStore) <> ServerError.
Proof.
  unfold ussdRoute. destruct (ussdRequestSchema body) as [request |];
    [| discriminate].
  destruct (processUSSDRequest_normal createBill request sessionStore) as [r Hr].
  destruct (processUSSDRequest _ _ _) as [s c]. simpl in Hr. subst c.
  discriminate.
Qed.

(** ** Instances *)

(** Cancelling a dialogue that has reached the confirmation step. *)
Lemma cancel_removes_session_witness :
  storeAtConfirm !! USSDRequest.sessionId (sampleRequest "s1" "2")
  = Some stateAtConfirm
  /\ USSDState.step stateAtConfirm = ConfirmStep
  /\ USSDRequest.text (sampleRequest "s1" "2") = js "2"
  /\ (exists response,
        processUSSDRequest failingStore (sampleRequest "s1" "2") storeAtConfirm
        = (delete (USSDRequest.sessionId (sampleRequest "s1" "2")) storeAtConfirm,
           Normal response)
        /\ USSDResponse.status response = END)
  /\ delete (USSDRequest.sessionId (sampleRequest "s1" "2")) storeAtConfirm
       !! USSDRequest.sessionId (sampleRequest "s1" "2") = None.
Proof.
  assert (H1 : storeAtConfirm !! USSDRequest.sessionId (sampleRequest "s1" "2")
               = Some stateAtConfirm) by (vm_compute; reflexivity).
  destruct (cancel_removes_session failingStore (sampleRequest "s1" "2")
              storeAtConfirm stateAtConfirm H1 eq_refl eq_refl)
    as (Hend & Hgone & _).
  repeat split; assumption.
Defined.

(** The store of that dialogue is reachable and its session well formed. *)
Lemma stored_sessions_well_formed_witness :
  reachable storeAtConfirm
  /\ storeAtConfirm !! js "s1" = Some stateAtConfirm
  /\ is_Some (USSDState.phoneNumber stateAtConfirm)
  /\ exists a, USSDState.amount stateAtConfirm = Some a /\ gt0 a = true.
Proof.
  assert (Hreach : reachable storeAtConfirm)
    by apply reach_turn, reach_turn, reach_start.
  assert (Hstored : storeAtConfirm !! js "s1" = Some stateAtConfirm)
    by (vm_compute; reflexivity).
  destruct (stored_sessions_well_formed storeAtConfirm (js "s1") stateAtConfirm
              Hreach Hstored) as (Hphone & Hamount & _).
  repeat split; try assumption. apply Hamount. right. reflexivity.
Defined.

(** A turn in which the members handler throws: the stored session has no
    amount; and a turn on a store the service reaches, where the handler
    returns. *)
Lemma processUSSDRequest_total_witness :
  (handleStep failingStore (sampleRequest "s1" "0712345678")
     (getOrCreate (sampleRequest "s1" "0712345678") storeWithoutAmount)
     storeWithoutAmount
   = (<[js "s1" :=
          {| USSDState.step := ConfirmStep;
             USSDState.amount := None;
             USSDState.memberPhones := [js "0712345678"];
             USSDState.creatorName := None;
             USSDState.phoneNumber := Some (js "+255700000000") |}]>
        storeWithoutAmount,
      Throw TypeError)
   /\ processUSSDRequest failingStore (sampleRequest "s1" "0712345678")
        storeWithoutAmount
      = (<[js "s1" :=
             {| USSDState.step := ConfirmStep;
                USSDState.amount := None;
                USSDState.memberPhones := [js "0712345678"];
                USSDState.creatorName := None;
                USSDState.phoneNumber := Some (js "+255700000000") |}]>
           storeWithoutAmount,
         Normal {| USSDResponse.sessionId := js "s1";
                   USSDResponse.serviceCode := js "*123#";
                   USSDResponse.message
                     := js "An error occurred. Please try again.";
                   USSDResponse.status := END |}))
  /\ (reachable storeAtMembers
      /\ exists response,
           snd (handleStep acceptingStore membersRequest
                  (getOrCreate membersRequest storeAtMembers) storeAtMembers)
           = Normal response).
Proof.
  assert (Hthrow :
    handleStep failingStore (sampleRequest "s1" "0712345678")
      (getOrCreate (sampleRequest "s1" "0712345678") storeWithoutAmount)
      storeWithoutAmount
    = (<[js "s1" :=
           {| USSDState.step := ConfirmStep;
              USSDState.amount := None;
              USSDState.memberPhones := [js "0712345678"];
              USSDState.creatorName := None;
              USSDState.phoneNumber := Some (js "+255700000000") |}]>
         storeWithoutAmount,
       Throw TypeError)) by (vm_compute; reflexivity).
  assert (Hreach : reachable storeAtMembers) by apply reach_turn, reach_start.
  split.
  - split; [exact Hthrow |].
    destruct (processUSSDRequest_total failingStore
                (sampleRequest "s1" "0712345678") storeWithoutAmount)
      as (_ & Hcatch & _).
    destruct (Hcatch _ _ Hthrow)
      as ([sid code msg st] & Hrun & Hstatus & Hmessage & Hsid & Hcode).
    simpl in Hstatus, Hmessage, Hsid, Hcode. subst. exact Hrun.
  - split; [exact Hreach |].
    destruct (processUSSDRequest_total acceptingStore membersRequest
                storeAtMembers) as (_ & _ & _ & _ & Hreturns).
    exact (Hreturns Hreach).
Defined.

(** * Further properties *)

(** ** The pattern matcher *)

Lemma matches_none_inv s : matches RNone s <-> False.
Proof. split; [inversion 1 | contradiction]. Qed.

Lemma matches_eps_inv s : matches REps s <-> s = [].
Proof. split; [inversion 1; reflexivity | intros ->; constructor]. Qed.

Lemma matches_class_inv p s :
  matches (RClass p) s <-> exists c, s = [c] /\ p c = true.
Proof.
  split.
  - inversion 1; subst. eauto.
  - intros (c & -> & Hc). constructor. exact Hc.
Qed.

Lemma matches_seq_inv r1 r2 s :
  matches (RSeq r1 r2) s
  <-> exists s1 s2, s = s1 ++ s2 /\ matches r1 s1 /\ matches r2 s2.
Proof.
  split.
  - inversion 1; subst. eauto.
  - intros (s1 & s2 & -> & H1 & H2). constructor; assumption.
Qed.

Lemma matches_alt_inv r1 r2 s :
  matches (RAlt r1 r2) s <-> matches r1 s \/ matches r2 s.
Proof.
  split.
  - inversion 1; subst; auto.
  - intros [H | H]; [apply matches_alt_l | apply matches_alt_r]; exact H.
Qed.

Lemma nullable_matches r : nullable r = true <-> matches r [].
Proof.
  induction r as [| | p | a IHa b IHb | a IHa b IHb]; simpl.
  - rewrite matches_none_inv. split; [discriminate | contradiction].
  - rewrite matches_eps_inv. split; reflexivity.
  - rewrite matches_class_inv. split; [discriminate |].
    intros (c & H & _). discriminate H.
  - rewrite andb_true_iff, IHa, IHb, matches_seq_inv. split.
    + intros [Ha Hb]. exists [], []. auto.
    + intros (s1 & s2 & Heq & H1 & H2). symmetry in Heq.
      apply app_eq_nil in Heq as [-> ->]. auto.
  - rewrite orb_true_iff, IHa, IHb, matches_alt_inv. reflexivity.
Qed.

Lemma deriv_matches c r : forall s, matches (deriv c r) s <-> matches r (c :: s).
Proof.
  induction r as [| | p | a IHa b IHb | a IHa b IHb]; intros s; simpl.
  - rewrite !matches_none_inv. reflexivity.
  - rewrite matches_none_inv, matches_eps_inv. split; [contradiction | discriminate].
  - rewrite matches_class_inv. destruct (p c) eqn:Hp.
    + rewrite matches_eps_inv. split.
      * intros ->. eauto.
      * intros (d & [= <- ->] & _). reflexivity.
    + rewrite matches_none_inv. split; [contradiction |].
      intros (d & [= <- ->] & Hd). congruence.
  - assert (Hseq : matches (RSeq (deriv c a) b) s
                   <-> exists s1 s2, s = s1 ++ s2 /\ matches a (c :: s1) /\ matches b s2).
    { rewrite matches_seq_inv. split; intros (s1 & s2 & Heq & H1 & H2);
        exists s1, s2; (split; [exact Heq |]); (split; [apply IHa |]); assumption. }
    assert (Hgoal : matches (RSeq a b) (c :: s)
                    <-> (exists s1 s2, s = s1 ++ s2 /\ matches a (c :: s1) /\ matches b s2)
                        \/ (matches a [] /\ matches b (c :: s))).
    { rewrite matches_seq_inv. split.
      - intros (s1 & s2 & Heq & H1 & H2).
        destruct s1 as [| c1 s1]; simpl in Heq.
        + subst s2. right. auto.
        + injection Heq as <- ->. left. eauto.
      - intros [(s1 & s2 & -> & H1 & H2) | [H1 H2]].
        + exists (c :: s1), s2. auto.
        + exists [], (c :: s). auto. }
    rewrite Hgoal. destruct (nullable a) eqn:Hn.
    + rewrite matches_alt_inv, Hseq, IHb, <- nullable_matches, Hn. tauto.
    + rewrite Hseq, <- nullable_matches, Hn. split; [auto |].
      intros [H | [H _]]; [exact H | discriminate H].
  - rewrite !matches_alt_inv, IHa, IHb. reflexivity.
Qed.

(** The derivative test accepts exactly the strings the pattern matches. *)
Lemma regex_test_matches s : forall r, regex_test r s = true <-> matches r s.
Proof.
  induction s as [| c s IH]; intros r; simpl.
  - apply nullable_matches.
  - rewrite IH. apply deriv_matches.
Qed.

Lemma matches_lit l s : matches (RLit l) s <-> s = l.
Proof.
  revert s. induction l as [| c l IH]; intros s; simpl.
  - apply matches_eps_inv.
  - rewrite matches_seq_inv. split.
    + intros (s1 & s2 & -> & H1 & H2). apply IH in H2 as ->.
      unfold RChar in H1. apply matches_class_inv in H1 as (d & -> & Hd).
      apply N.eqb_eq in Hd as ->. reflexivity.
    + intros ->. exists [c], l. split; [reflexivity |].
      split; [| apply IH; reflexivity].
      constructor. apply N.eqb_refl.
Qed.

Lemma matches_times p n s :
  matches (RTimes n (RClass p)) s <-> length s = n /\ forallb p s = true.
Proof.
  revert s. induction n as [| n IH]; intros s; simpl.
  - rewrite matches_eps_inv. split.
    + intros ->. auto.
    + intros [H _]. destruct s; [reflexivity | discriminate].
  - rewrite matches_seq_inv. split.
    + intros (s1 & s2 & -> & H1 & H2).
      apply matches_class_inv in H1 as (c & -> & Hc). apply IH in H2 as [Hl Hf].
      simpl. rewrite Hc, Hf, Hl. auto.
    + intros [Hl Hf]. destruct s as [| c s]; [discriminate |]. simpl in *.
      apply andb_true_iff in Hf as [Hc Hf]. exists [c], s.
      split; [reflexivity |]. split; [constructor; exact Hc |].
      apply IH. split; [congruence | exact Hf].
Qed.

Lemma matches_upTo p n s :
  matches (RUpTo n (RClass p)) s <-> (length s <= n)%nat /\ forallb p s = true.
Proof.
  revert s. induction n as [| n IH]; intros s; simpl.
  - rewrite matches_eps_inv. split.
    + intros ->. auto.
    + intros [H _]. destruct s; [reflexivity | simpl in H; lia].
  - unfold ROpt. rewrite matches_alt_inv, matches_seq_inv, matches_eps_inv. split.
    + intros [(s1 & s2 & -> & H1 & H2) | ->]; [| simpl; split; [lia | reflexivity]].
      apply matches_class_inv in H1 as (c & -> & Hc). apply IH in H2 as [Hl Hf].
      simpl. rewrite Hc, Hf. split; [lia | reflexivity].
    + intros [Hl Hf]. destruct s as [| c s]; [right; reflexivity | left].
      simpl in *. apply andb_true_iff in Hf as [Hc Hf]. exists [c], s.
      split; [reflexivity |]. split; [constructor; exact Hc |].
      apply IH. split; [lia | exact Hf].
Qed.

Lemma matches_national s :
  matches (RSeq (RClass is67) (RTimes 8 (RClass isDigit))) s
  <-> isNational s = true.
Proof.
  rewrite matches_seq_inv. unfold isNational. split.
  - intros (s1 & s2 & -> & H1 & H2).
    apply matches_class_inv in H1 as (d & -> & Hd).
    apply matches_times in H2 as [Hl Hf]. simpl.
    rewrite Hd, Hf, Hl. reflexivity.
  - destruct s as [| d ds]; [discriminate |]. intros H.
    apply andb_true_iff in H as [H Hf]. apply andb_true_iff in H as [Hd Hl].
    apply Nat.eqb_eq in Hl. exists [d], ds. split; [reflexivity |].
    split; [constructor; exact Hd | apply matches_times; auto].
Qed.

(** ** Phone numbers, in general *)

Lemma phoneRegex_matches s :
  matches phoneRegex s
  <-> exists n, isNational n = true
                /\ (s = n \/ s = js "0" ++ n \/ s = js "+255" ++ n).
Proof.
  unfold phoneRegex, ROpt.
  rewrite matches_seq_inv. split.
  - intros (s1 & s2 & -> & H1 & H2). apply matches_national in H2.
    exists s2. split; [exact H2 |].
    apply matches_alt_inv in H1 as [H1 | H1].
    + apply matches_alt_inv in H1 as [H1 | H1]; apply matches_lit in H1 as ->; auto.
    + apply matches_eps_inv in H1 as ->. auto.
  - intros (n & Hn & [-> | [-> | ->]]); apply matches_national in Hn.
    + exists [], n. split; [reflexivity |]. split; [| exact Hn].
      apply matches_alt_r. constructor.
    + exists (js "0"), n. split; [reflexivity |]. split; [| exact Hn].
      apply matches_alt_l, matches_alt_r, matches_lit. reflexivity.
    + exists (js "+255"), n. split; [reflexivity |]. split; [| exact Hn].
      apply matches_alt_l, matches_alt_l, matches_lit. reflexivity.
Qed.

(** X1: the engine's phone check accepts exactly a national number (a 6 or
    a 7 followed by eight digits), written bare, after a 0, or after
    +255. *)
Theorem isValidPhoneNumber_spec (phone : jsstring) :
  isValidPhoneNumber phone = true
  <-> exists n, isNational n = true
                /\ (phone = n \/ phone = js "0" ++ n \/ phone = js "+255" ++ n).
Proof.
  unfold isValidPhoneNumber. rewrite regex_test_matches.
  apply phoneRegex_matches.
Qed.

(** Strings without separator characters. *)
Lemma stripSeparators_id_iff s :
  stripSeparators s = s <-> Forall (fun c => isSeparator c = false) s.
Proof.
  unfold stripSeparators. induction s as [| c s IH]; simpl.
  - split; [constructor | reflexivity].
  - destruct (isSeparator c) eqn:Hc; simpl.
    + split.
      * intros H. exfalso.
        assert (Hlen : (length (List.filter (fun c => negb (isSeparator c)) s)
                        <= length s)%nat) by apply List.filter_length_le.
        rewrite H in Hlen. simpl in Hlen. lia.
      * inversion 1; congruence.
    + split.
      * intros [= H]. constructor; [exact Hc | apply IH, H].
      * inversion 1; subst. f_equal. apply IH. assumption.
Qed.

Lemma stripSeparators_clean s :
  Forall (fun c => isSeparator c = false) (stripSeparators s).
Proof.
  apply List.Forall_forall. intros c Hc. unfold stripSeparators in Hc.
  apply List.filter_In in Hc as [_ Hc]. apply negb_true_iff, Hc.
Qed.

Lemma stripSeparators_idempotent s :
  stripSeparators (stripSeparators s) = stripSeparators s.
Proof. apply stripSeparators_id_iff, stripSeparators_clean. Qed.

Lemma digit_not_separator c : isDigit c = true -> isSeparator c = false.
Proof. unfold isDigit, isSeparator, isWhiteSpace. lia. Qed.

Lemma is67_digit c : is67 c = true -> isDigit c = true.
Proof. unfold is67, isDigit. lia. Qed.

Lemma national_clean n :
  isNational n = true -> Forall (fun c => isSeparator c = false) n.
Proof.
  destruct n as [| d ds]; [discriminate |]. unfold isNational. intros H.
  apply andb_true_iff in H as [H Hf]. apply andb_true_iff in H as [Hd _].
  constructor; [apply digit_not_separator, is67_digit, Hd |].
  apply List.Forall_forall. intros c Hc. apply digit_not_separator.
  rewrite forallb_forall in Hf. apply Hf, Hc.
Qed.

Lemma national_length n : isNational n = true -> length n = 9%nat.
Proof.
  destruct n as [| d ds]; [discriminate |]. unfold isNational. intros H.
  apply andb_true_iff in H as [H _]. apply andb_true_iff in H as [_ Hl].
  apply Nat.eqb_eq in Hl. simpl. congruence.
Qed.

(** From an accepted phone number to its national number. *)
Ltac phone_cases H :=
  unfold isValidPhoneNumber in H; rewrite regex_test_matches in H;
  apply phoneRegex_matches in H;
  let n := fresh "n" in
  let Hn := fresh "Hn" in
  destruct H as (n & Hn & [-> | [-> | ->]]).

Lemma js_0 : js "0" = [0x30].
Proof. reflexivity. Qed.

Lemma js_plus255 : js "+255" = [0x2B; 0x32; 0x35; 0x35].
Proof. reflexivity. Qed.

Lemma js_255 : js "255" = [0x32; 0x35; 0x35].
Proof. reflexivity. Qed.

Lemma js_plus : js "+" = [0x2B].
Proof. reflexivity. Qed.

Lemma valid_clean phone :
  isValidPhoneNumber phone = true ->
  Forall (fun c => isSeparator c = false) phone.
Proof.
  intros H. phone_cases H.
  - apply national_clean, Hn.
  - rewrite js_0. constructor; [reflexivity | apply national_clean, Hn].
  - rewrite js_plus255. repeat (constructor; [reflexivity |]).
    apply national_clean, Hn.
Qed.

(** X2: whatever the engine's phone check accepts has no space, hyphen or
    parenthesis in it, and the utilities' [validatePhoneNumber] accepts it
    too. *)
Theorem engine_check_implies_utility_check (phone : jsstring) :
  isValidPhoneNumber phone = true ->
  stripSeparators phone = phone /\ validatePhoneNumber phone = true.
Proof.
  intros H. pose proof (valid_clean phone H) as Hclean.
  apply stripSeparators_id_iff in Hclean. split; [exact Hclean |].
  unfold validatePhoneNumber. rewrite Hclean. exact H.
Qed.

(** The local writing "0712345678". *)
Lemma engine_check_implies_utility_check_witness :
  isValidPhoneNumber (js "0712345678") = true
  /\ stripSeparators (js "0712345678") = js "0712345678"
  /\ validatePhoneNumber (js "0712345678") = true.
Proof.
  split; [reflexivity |].
  exact (engine_check_implies_utility_check (js "0712345678") eq_refl).
Defined.

(** How [formatPhoneNumber] treats a cleaned number of each accepted
    writing. *)
Lemma national_head n :
  isNational n = true -> exists d ds, n = d :: ds /\ is67 d = true.
Proof.
  destruct n as [| d ds]; [discriminate |]. unfold isNational. intros H.
  apply andb_true_iff in H as [H _]. apply andb_true_iff in H as [Hd _]. eauto.
Qed.

Lemma national_local n : isNational n = true -> regex_test localRegex n = true.
Proof. intros H. apply regex_test_matches, matches_national, H. Qed.

Lemma startsWith_app p r : startsWith (p ++ r) p = true.
Proof.
  induction p as [| a p IH]; [reflexivity |]. simpl.
  rewrite N.eqb_refl. exact IH.
Qed.

Lemma startsWith_head_ne c r p a p' :
  p = a :: p' -> (a =? c) = false -> startsWith (c :: r) p = false.
Proof. intros ->. simpl. intros ->. reflexivity. Qed.

Lemma format_national n :
  isNational n = true -> formatPhoneNumber n = js "+255" ++ n.
Proof.
  intros Hn. unfold formatPhoneNumber. cbv zeta.
  pose proof (national_clean n Hn) as Hc. apply stripSeparators_id_iff in Hc.
  rewrite Hc, (national_local n Hn).
  destruct (national_head n Hn) as (d & ds & -> & Hd).
  unfold is67 in Hd.
  rewrite (startsWith_head_ne d ds (js "0") 0x30 [] eq_refl) by lia.
  rewrite (startsWith_head_ne d ds (js "+255") 0x2B (js "255") eq_refl) by lia.
  rewrite (startsWith_head_ne d ds (js "255") 0x32 [0x35; 0x35] eq_refl) by lia.
  reflexivity.
Qed.

Lemma format_local n :
  isNational n = true -> formatPhoneNumber (js "0" ++ n) = js "+255" ++ n.
Proof.
  intros Hn. unfold formatPhoneNumber. cbv zeta.
  assert (Hc : stripSeparators (js "0" ++ n) = js "0" ++ n).
  { apply stripSeparators_id_iff. rewrite js_0.
    constructor; [reflexivity | apply national_clean, Hn]. }
  rewrite Hc, startsWith_app. reflexivity.
Qed.

Lemma format_international n :
  isNational n = true -> formatPhoneNumber (js "+255" ++ n) = js "+255" ++ n.
Proof.
  intros Hn. unfold formatPhoneNumber. cbv zeta.
  assert (Hc : stripSeparators (js "+255" ++ n) = js "+255" ++ n).
  { apply stripSeparators_id_iff. rewrite js_plus255.
    repeat (constructor; [reflexivity |]). apply national_clean, Hn. }
  rewrite Hc, startsWith_app. reflexivity.
Qed.

Lemma format_bare_country n :
  isNational n = true -> formatPhoneNumber (js "255" ++ n) = js "+255" ++ n.
Proof.
  intros Hn. unfold formatPhoneNumber. cbv zeta.
  assert (Hc : stripSeparators (js "255" ++ n) = js "255" ++ n).
  { apply stripSeparators_id_iff. rewrite js_255.
    repeat (constructor; [reflexivity |]). apply national_clean, Hn. }
  rewrite Hc, startsWith_app. reflexivity.
Qed.

Lemma international_valid n :
  isNational n = true -> isValidPhoneNumber (js "+255" ++ n) = true.
Proof.
  intros Hn. unfold isValidPhoneNumber.
  apply regex_test_matches, phoneRegex_matches. eauto.
Qed.

(** [formatPhoneNumber] looks at the cleaned number only. *)
Lemma format_strip phone :
  formatPhoneNumber (stripSeparators phone) = formatPhoneNumber phone.
Proof.
  unfold formatPhoneNumber. rewrite stripSeparators_idempotent. reflexivity.
Qed.

(** X3: a number that [validatePhoneNumber] accepts is formatted as +255
    followed by its national number [n]: the last nine characters of the
    number with its separators removed (nine digits, the first a 6 or a
    7), which is written there bare, after a 0 or after +255.  The result
    has thirteen characters and is accepted both by [validatePhoneNumber]
    and by the engine's check. *)
Theorem format_of_valid_number (phone : jsstring) :
  validatePhoneNumber phone = true ->
  exists n,
    n = drop (length (stripSeparators phone) - 9) (stripSeparators phone)
    /\ isNational n = true
    /\ (stripSeparators phone = n
        \/ stripSeparators phone = js "0" ++ n
        \/ stripSeparators phone = js "+255" ++ n)
    /\ formatPhoneNumber phone = js "+255" ++ n
    /\ length (formatPhoneNumber phone) = 13%nat
    /\ validatePhoneNumber (formatPhoneNumber phone) = true
    /\ isValidPhoneNumber (formatPhoneNumber phone) = true.
Proof.
  unfold validatePhoneNumber. cbv zeta. intros H.
  rewrite <- format_strip. fold (isValidPhoneNumber (stripSeparators phone)) in H.
  assert (Hn : exists n,
             isNational n = true
             /\ (stripSeparators phone = n
                 \/ stripSeparators phone = js "0" ++ n
                 \/ stripSeparators phone = js "+255" ++ n)
             /\ formatPhoneNumber (stripSeparators phone) = js "+255" ++ n).
  { revert H. generalize (stripSeparators phone) as c. intros c H.
    phone_cases H; exists n; (split; [exact Hn |]).
    - split; [left; reflexivity | apply format_national, Hn].
    - split; [right; left; reflexivity | apply format_local, Hn].
    - split; [right; right; reflexivity | apply format_international, Hn]. }
  destruct Hn as (n & Hn & Hwritten & ->). exists n.
  pose proof (international_valid n Hn) as Hvalid.
  pose proof (national_length n Hn) as Hlen.
  split.
  { destruct Hwritten as [-> | [-> | ->]];
      rewrite ?length_app, Hlen; cbn [length js]; reflexivity. }
  split; [exact Hn |]. split; [exact Hwritten |]. split; [reflexivity |].
  split; [rewrite length_app, Hlen; reflexivity |].
  split; [| exact Hvalid].
  unfold validatePhoneNumber. cbv zeta.
  pose proof (valid_clean _ Hvalid) as Hc. apply stripSeparators_id_iff in Hc.
  rewrite Hc. exact Hvalid.
Qed.

(** A local number written with a space and a hyphen: its national number
    is 712345678. *)
Lemma format_of_valid_number_witness :
  validatePhoneNumber (js "0712 345-678") = true
  /\ isNational (js "712345678") = true
  /\ stripSeparators (js "0712 345-678") = js "0" ++ js "712345678"
  /\ formatPhoneNumber (js "0712 345-678") = js "+255" ++ js "712345678"
  /\ length (formatPhoneNumber (js "0712 345-678")) = 13%nat
  /\ validatePhoneNumber (formatPhoneNumber (js "0712 345-678")) = true
  /\ isValidPhoneNumber (formatPhoneNumber (js "0712 345-678")) = true.
Proof.
  split; [reflexivity |].
  destruct (format_of_valid_number (js "0712 345-678") eq_refl)
    as (n & Hlast & Hn & _ & Hformat & Hlength & Hvalid & Hengine).
  change (n = js "712345678") in Hlast. subst n.
  repeat split; assumption || reflexivity.
Defined.

(** X4: the four writings of one national number (bare, after 0, after
    +255, after 255) are all formatted as +255 followed by the national
    number. *)
Theorem format_joins_writings (n : jsstring) :
  isNational n = true ->
  formatPhoneNumber n = js "+255" ++ n
  /\ formatPhoneNumber (js "0" ++ n) = js "+255" ++ n
  /\ formatPhoneNumber (js "+255" ++ n) = js "+255" ++ n
  /\ formatPhoneNumber (js "255" ++ n) = js "+255" ++ n.
Proof.
  intros Hn. repeat split.
  - apply format_national, Hn.
  - apply format_local, Hn.
  - apply format_international, Hn.
  - apply format_bare_country, Hn.
Qed.

(** The national number 698765432. *)
Lemma format_joins_writings_witness :
  isNational (js "698765432") = true
  /\ formatPhoneNumber (js "698765432") = js "+255" ++ js "698765432"
  /\ formatPhoneNumber (js "0" ++ js "698765432") = js "+255" ++ js "698765432"
  /\ formatPhoneNumber (js "+255" ++ js "698765432") = js "+255" ++ js "698765432"
  /\ formatPhoneNumber (js "255" ++ js "698765432") = js "+255" ++ js "698765432".
Proof.
  split; [reflexivity |].
  exact (format_joins_writings (js "698765432") eq_refl).
Defined.

(** A cleaned number that already starts with +255, or that no branch of
    [formatPhoneNumber] applies to, is returned as it is. *)
Lemma format_fixed out :
  Forall (fun c => isSeparator c = false) out ->
  startsWith out (js "0") = false ->
  startsWith out (js "+255") = true
  \/ (startsWith out (js "255") = false /\ regex_test localRegex out = false) ->
  formatPhoneNumber out = out.
Proof.
  intros Hclean H0 H. unfold formatPhoneNumber. cbv zeta.
  apply stripSeparators_id_iff in Hclean. rewrite Hclean, H0.
  destruct H as [-> | [H2 H3]]; [reflexivity |].
  rewrite H2, H3. destruct (startsWith out (js "+255")); reflexivity.
Qed.

(** X5: [formatPhoneNumber] is idempotent on every string, accepted or
    not, and its result never holds a space, a hyphen or a parenthesis. *)
Theorem formatPhoneNumber_idempotent (phone : jsstring) :
  formatPhoneNumber (formatPhoneNumber phone) = formatPhoneNumber phone
  /\ Forall (fun c => isSeparator c = false) (formatPhoneNumber phone).
Proof.
  pose proof (stripSeparators_clean phone) as Hclean.
  assert (Hplus : Forall (fun c => isSeparator c = false) (js "+255"))
    by (repeat constructor).
  unfold formatPhoneNumber at 2 3 4. cbv zeta.
  destruct (startsWith (stripSeparators phone) (js "0")) eqn:H0.
  { split; [| apply Forall_app; split; [exact Hplus | apply Forall_drop, Hclean]].
    apply format_fixed.
    - apply Forall_app. split; [exact Hplus | apply Forall_drop, Hclean].
    - reflexivity.
    - left. apply startsWith_app. }
  destruct (startsWith (stripSeparators phone) (js "+255")) eqn:H1.
  { split; [| exact Hclean]. apply format_fixed; auto. }
  destruct (startsWith (stripSeparators phone) (js "255")) eqn:H2.
  { assert (Hout : Forall (fun c => isSeparator c = false)
                     (js "+" ++ stripSeparators phone))
      by (apply Forall_app; split; [repeat constructor | exact Hclean]).
    split; [| exact Hout]. apply format_fixed.
    - exact Hout.
    - reflexivity.
    - left. exact H2. }
  destruct (regex_test localRegex (stripSeparators phone)) eqn:H3.
  { split; [| apply Forall_app; split; [exact Hplus | exact Hclean]].
    apply format_fixed.
    - apply Forall_app. split; [exact Hplus | exact Hclean].
    - reflexivity.
    - left. apply startsWith_app. }
  split; [| exact Hclean]. apply format_fixed; auto.
Qed.

(** ** Sanitizing and session ids *)

Lemma filter_id_iff {A : Type} (f : A -> bool) (l : list A) :
  List.filter f l = l <-> forallb f l = true.
Proof.
  induction l as [| a l IH]; simpl; [tauto |].
  destruct (f a) eqn:Ha; simpl.
  - rewrite <- IH. split; [intros [= H]; exact H | intros ->; reflexivity].
  - split; [| discriminate]. intros H.
    pose proof (List.filter_length_le f l) as Hlen. rewrite H in Hlen.
    simpl in Hlen. lia.
Qed.

(** X6: the result of [sanitizeInput] holds no < and no >, is never longer
    than the input, and is the trimmed input exactly when the trimmed
    input holds no < and no >. *)
Theorem sanitizeInput_spec (input : jsstring) :
  Forall (fun c => c <> 0x3C /\ c <> 0x3E) (sanitizeInput input)
  /\ (length (sanitizeInput input) <= length input)%nat
  /\ (sanitizeInput input = trim input
      <-> Forall (fun c => c <> 0x3C /\ c <> 0x3E) (trim input)).
Proof.
  unfold sanitizeInput. split; [| split].
  - apply List.Forall_forall. intros c Hc.
    apply List.filter_In in Hc as [_ Hc]. unfold isAngle in Hc. lia.
  - etransitivity; [apply List.filter_length_le |].
    unfold trim.
    destruct (trimEnd_split (trimStart input)) as (w & Hw & _).
    destruct (trimStart_split input) as (v & Hv & _).
    rewrite Hv at 2. rewrite Hw at 2. rewrite !length_app. lia.
  - rewrite filter_id_iff, forallb_forall, List.Forall_forall.
    split; intros H c Hc; specialize (H c Hc); unfold isAngle in *; lia.
Qed.

(** X7: [validateSessionId] accepts exactly the strings of 8 to 32
    characters that are all ASCII letters or digits. *)
Theorem validateSessionId_spec (sessionId : jsstring) :
  validateSessionId sessionId = true
  <-> (8 <= length sessionId <= 32)%nat /\ forallb isAlnum sessionId = true.
Proof.
  unfold validateSessionId, sessionIdRegex.
  rewrite regex_test_matches, matches_seq_inv. split.
  - intros (s1 & s2 & -> & H1 & H2).
    apply matches_times in H1 as [Hl1 Hf1]. apply matches_upTo in H2 as [Hl2 Hf2].
    rewrite length_app, forallb_app, Hf1, Hf2. split; [lia | reflexivity].
  - intros [Hlen Hall]. exists (take 8 sessionId), (drop 8 sessionId).
    split; [symmetry; apply take_drop |].
    rewrite <- (take_drop 8 sessionId), forallb_app in Hall.
    apply andb_true_iff in Hall as [Ht Hd]. split.
    + apply matches_times. split; [rewrite length_take; lia | exact Ht].
    + apply matches_upTo. split; [rewrite length_drop; lia | exact Hd].
Qed.

(** ** Responses *)

Lemma catchError_sessionId sessionId r response :
  (forall response', snd r = Normal response' ->
     USSDResponse.sessionId response' = sessionId) ->
  snd (catchError sessionId r) = Normal response ->
  USSDResponse.sessionId response = sessionId.
Proof.
  destruct r as [s [a | e]]; simpl; intros Hr.
  - apply Hr.
  - intros [= <-]. reflexivity.
Qed.

(** X8: every turn is answered with the session id of its request. *)
Theorem response_echoes_sessionId createBill request sessionStore :
  exists response,
    snd (processUSSDRequest createBill request sessionStore) = Normal response
    /\ USSDResponse.sessionId response = USSDRequest.sessionId request.
Proof.
  destruct (processUSSDRequest_normal createBill request sessionStore)
    as [response Hresponse].
  exists response. split; [exact Hresponse |].
  revert Hresponse. unfold processUSSDRequest.
  destruct (USSDState.step _).
  - apply catchError_sessionId. intros r. unfold handleAmountStep.
    handler_cases; intros [= <-]; reflexivity.
  - apply catchError_sessionId. intros r. unfold handleMembersStep.
    handler_cases; first [discriminate | intros [= <-]; reflexivity].
  - unfold handleConfirmStep. handler_cases; intros [= <-]; reflexivity.
Qed.

(** ** The store across a turn *)

(** X9: a turn leaves the entry of every other session id as it was, and
    changes the number of sessions by one at most: it grows only when the
    id of the request was not stored, and shrinks only when the session of
    the request was at the confirmation step. *)
Theorem turn_is_local createBill request sessionStore :
  let after := fst (processUSSDRequest createBill request sessionStore) in
  (forall other, other <> USSDRequest.sessionId request ->
     getSessionInfo other after = getSessionInfo other sessionStore)
  /\ (getSessionCount after = getSessionCount sessionStore
      \/ (getSessionCount after = S (getSessionCount sessionStore)
          /\ sessionStore !! USSDRequest.sessionId request = None)
      \/ (S (getSessionCount after) = getSessionCount sessionStore
          /\ exists state,
               sessionStore !! USSDRequest.sessionId request = Some state
               /\ USSDState.step state = ConfirmStep)).
Proof.
  intros after. split.
  - intros other Hne. apply processUSSDRequest_other, Hne.
  - subst after. unfold getSessionCount.
    pose proof (processUSSDRequest_effect createBill request sessionStore) as Heff.
    destruct (sessionStore !! USSDRequest.sessionId request) as [state |] eqn:Hstored.
    + rewrite (getOrCreate_stored _ _ _ Hstored) in Heff.
      destruct Heff as [| Hs | a Hs _ _ | phones Hs _ _ | Hs];
        rewrite ?map_size_insert, ?map_size_delete, ?Hstored; simpl; auto.
      right; right. split; [| eauto].
      assert (size sessionStore <> 0%nat).
      { intros H0. apply map_size_empty_iff in H0. subst sessionStore.
        rewrite lookup_empty in Hstored. discriminate Hstored. }
      lia.
    + rewrite (getOrCreate_fresh _ _ Hstored) in Heff.
      destruct Heff as [| Hs | a Hs _ _ | phones Hs _ _ | Hs];
        try discriminate Hs;
        rewrite ?map_size_insert, ?Hstored; simpl; auto.
Qed.

(** What each step stores when it advances. *)
Lemma amount_turn createBill request sessionStore :
  USSDState.step (getOrCreate request sessionStore) = AmountStep ->
  gt0 (parseFloat (USSDRequest.text request)) = true ->
  fst (processUSSDRequest createBill request sessionStore)
  = <[USSDRequest.sessionId request :=
        {| USSDState.step := MembersStep;
           USSDState.amount := Some (parseFloat (USSDRequest.text request));
           USSDState.memberPhones :=
             USSDState.memberPhones (getOrCreate request sessionStore);
           USSDState.creatorName :=
             USSDState.creatorName (getOrCreate request sessionStore);
           USSDState.phoneNumber :=
             USSDState.phoneNumber (getOrCreate request sessionStore) |}]>
      sessionStore.
Proof.
  intros Hstep Hgt.
  assert (Hblank : isBlank (USSDRequest.text request) = false).
  { destruct (isBlank _) eqn:Hb; [| reflexivity].
    apply isBlank_trim in Hb.
    rewrite <- parseFloat_trim, Hb, parseFloat_empty in Hgt. discriminate Hgt. }
  unfold processUSSDRequest. rewrite Hstep, catchError_fst.
  unfold handleAmountStep. rewrite Hblank, parseFloat_trim.
  apply amount_guard in Hgt. rewrite Hgt. reflexivity.
Qed.

Lemma members_turn createBill request sessionStore state :
  sessionStore !! USSDRequest.sessionId request = Some state ->
  USSDState.step state = MembersStep ->
  isBlank (USSDRequest.text request) = false ->
  parsePhoneNumbers (USSDRequest.text request) <> [] ->
  fst (processUSSDRequest createBill request sessionStore)
  = <[USSDRequest.sessionId request :=
        {| USSDState.step := ConfirmStep;
           USSDState.amount := USSDState.amount state;
           USSDState.memberPhones := parsePhoneNumbers (USSDRequest.text request);
           USSDState.creatorName := USSDState.creatorName state;
           USSDState.phoneNumber := USSDState.phoneNumber state |}]>
      sessionStore.
Proof.
  intros Hstored Hstep Hblank Hphones. unfold processUSSDRequest.
  rewrite (getOrCreate_stored _ _ _ Hstored), Hstep, catchError_fst.
  unfold handleMembersStep. rewrite Hblank.
  destruct (parsePhoneNumbers _) as [| p ps]; [contradiction |]. simpl.
  destruct (USSDState.amount state); reflexivity.
Qed.

Lemma confirm_turn createBill request sessionStore state bill :
  sessionStore !! USSDRequest.sessionId request = Some state ->
  USSDState.step state = ConfirmStep ->
  USSDRequest.text request = js "1" ->
  createBill (billRequestOf state) = Normal bill ->
  exists response,
    processUSSDRequest createBill request sessionStore
    = (delete (USSDRequest.sessionId request) sessionStore, Normal response)
    /\ USSDResponse.status response = END.
Proof.
  intros Hstored Hstep Htext Hbill. unfold processUSSDRequest.
  rewrite (getOrCreate_stored _ _ _ Hstored), Hstep.
  unfold handleConfirmStep. rewrite Htext. simpl.
  unfold billRequestOf in Hbill. rewrite Hbill.
  eexists. split; reflexivity.
Qed.

(** ** Refused input *)

(** X10: at the amount step, a text that is not blank and whose value is
    NaN, zero or negative is refused: the store is left as it was (a
    session not yet stored stays unstored) and the response is the
    invalid-amount prompt with status [CON]. *)
Theorem amount_reprompt createBill request sessionStore :
  USSDState.step (getOrCreate request sessionStore) = AmountStep ->
  isBlank (USSDRequest.text request) = false ->
  isNaN (parseFloat (USSDRequest.text request))
  || le0 (parseFloat (USSDRequest.text request)) = true ->
  processUSSDRequest createBill request sessionStore
  = (sessionStore,
     Normal (createResponse (USSDRequest.sessionId request)
               invalidAmountMessage CON)).
Proof.
  intros Hstep Hblank Hguard. apply invalid_amount_reprompts; try assumption.
  destruct (gt0 _) eqn:Hgt; [| reflexivity].
  apply amount_guard in Hgt. congruence.
Qed.

(** A first turn with the text "-5". *)
Lemma amount_reprompt_witness :
  USSDState.step (getOrCreate (sampleRequest "s1" "-5") ∅) = AmountStep
  /\ isBlank (js "-5") = false
  /\ isNaN (parseFloat (js "-5")) || le0 (parseFloat (js "-5")) = true
  /\ processUSSDRequest failingStore (sampleRequest "s1" "-5") ∅
     = (∅, Normal (createResponse (js "s1") invalidAmountMessage CON)).
Proof.
  repeat (split; [reflexivity |]).
  exact (amount_reprompt failingStore (sampleRequest "s1" "-5") ∅
           eq_refl eq_refl eq_refl).
Defined.

(** X11: at the members step, a blank text, or a text none of whose
    entries is a valid phone number, leaves the store as it was and is
    answered with a prompt and status [CON]. *)
Theorem members_reprompt createBill request sessionStore state :
  sessionStore !! USSDRequest.sessionId request = Some state ->
  USSDState.step state = MembersStep ->
  isBlank (USSDRequest.text request) = true
  \/ parsePhoneNumbers (USSDRequest.text request) = [] ->
  processUSSDRequest createBill request sessionStore
  = (sessionStore,
     Normal (createResponse (USSDRequest.sessionId request)
               (if isBlank (USSDRequest.text request)
                then js "Please enter phone numbers separated by commas:"
                else js "No valid phone numbers found. Please enter valid phone numbers separated by commas:")
               CON)).
Proof.
  intros Hstored Hstep Hbad. unfold processUSSDRequest.
  rewrite (getOrCreate_stored _ _ _ Hstored), Hstep.
  unfold handleMembersStep.
  destruct (isBlank _); [reflexivity |].
  destruct Hbad as [Hbad | ->]; [discriminate Hbad | reflexivity].
Qed.

(** The members turn with the text "notanumber, 12345". *)
Lemma members_reprompt_witness :
  storeAtMembers !! USSDRequest.sessionId (sampleRequest "s1" "notanumber, 12345")
  = Some stateAtMembers
  /\ USSDState.step stateAtMembers = MembersStep
  /\ parsePhoneNumbers (js "notanumber, 12345") = []
  /\ processUSSDRequest failingStore (sampleRequest "s1" "notanumber, 12345")
       storeAtMembers
     = (storeAtMembers,
        Normal (createResponse (js "s1")
                  (js "No valid phone numbers found. Please enter valid phone numbers separated by commas:")
                  CON)).
Proof.
  assert (H1 : storeAtMembers
                 !! USSDRequest.sessionId (sampleRequest "s1" "notanumber, 12345")
               = Some stateAtMembers) by (vm_compute; reflexivity).
  split; [exact H1 |]. split; [reflexivity |]. split; [reflexivity |].
  exact (members_reprompt failingStore (sampleRequest "s1" "notanumber, 12345")
           storeAtMembers stateAtMembers H1 eq_refl (or_intror eq_refl)).
Defined.

(** X12: at the confirmation step the text is compared as it is, without
    trimming: any text other than exactly "1" or "2" leaves the store as
    it was, does not reach the Bill Store, and is answered with the
    invalid-option prompt and status [CON]. *)
Theorem confirm_reprompt createBill request sessionStore state :
  sessionStore !! USSDRequest.sessionId request = Some state ->
  USSDState.step state = ConfirmStep ->
  USSDRequest.text request <> js "1" ->
  USSDRequest.text request <> js "2" ->
  processUSSDRequest createBill request sessionStore
  = (sessionStore,
     Normal (createResponse (USSDRequest.sessionId request)
               (js "Invalid option. Please reply with:" ++ nl
                ++ js "1 - Confirm and Create Bill" ++ nl ++ js "2 - Cancel")
               CON)).
Proof.
  intros Hstored Hstep H1 H2. unfold processUSSDRequest.
  rewrite (getOrCreate_stored _ _ _ Hstored), Hstep.
  unfold handleConfirmStep.
  destruct (jseqb _ (js "1")) eqn:E1; [apply jseqb_true in E1; contradiction |].
  destruct (jseqb _ (js "2")) eqn:E2; [apply jseqb_true in E2; contradiction |].
  reflexivity.
Qed.

(** The confirmation turn with the text " 1". *)
Lemma confirm_reprompt_witness :
  storeAtConfirm !! USSDRequest.sessionId (sampleRequest "s1" " 1")
  = Some stateAtConfirm
  /\ USSDState.step stateAtConfirm = ConfirmStep
  /\ js " 1" <> js "1"
  /\ js " 1" <> js "2"
  /\ processUSSDRequest acceptingStore (sampleRequest "s1" " 1") storeAtConfirm
     = (storeAtConfirm,
        Normal (createResponse (js "s1")
                  (js "Invalid option. Please reply with:" ++ nl
                   ++ js "1 - Confirm and Create Bill" ++ nl ++ js "2 - Cancel")
                  CON)).
Proof.
  assert (H1 : storeAtConfirm !! USSDRequest.sessionId (sampleRequest "s1" " 1")
               = Some stateAtConfirm) by (vm_compute; reflexivity).
  assert (H2 : js " 1" <> js "1") by discriminate.
  assert (H3 : js " 1" <> js "2") by discriminate.
  split; [exact H1 |]. split; [reflexivity |].
  split; [exact H2 |]. split; [exact H3 |].
  exact (confirm_reprompt acceptingStore (sampleRequest "s1" " 1")
           storeAtConfirm stateAtConfirm H1 eq_refl H2 H3).
Defined.

(** X13: on a reachable store, a turn whose session is at the amount or
    the members step (a session not yet stored counts as the amount step)
    is always answered with status [CON]; only a turn at the confirmation
    step can end the dialogue. *)
Theorem only_confirmation_ends createBill request sessionStore :
  reachable sessionStore ->
  USSDState.step (getOrCreate request sessionStore) <> ConfirmStep ->
  exists response,
    snd (processUSSDRequest createBill request sessionStore) = Normal response
    /\ USSDResponse.status response = CON.
Proof.
  intros Hreach Hstep.
  destruct (processUSSDRequest createBill request sessionStore)
    as [after [response | e]] eqn:Hrun;
    [| destruct (processUSSDRequest_normal createBill request sessionStore)
         as [r Hr]; rewrite Hrun in Hr; discriminate Hr].
  exists response. split; [reflexivity |].
  destruct (USSDResponse.status response) eqn:Hstatus; [reflexivity |].
  destruct (END_response_cases _ _ _ _ _ Hrun Hstatus)
    as [Hgone | [(Hc & _) | [Hm Hnone]]].
  - exfalso. revert Hrun Hstatus. unfold processUSSDRequest.
    destruct (USSDState.step (getOrCreate request sessionStore)) eqn:Hs;
      [| | contradiction].
    + unfold handleAmountStep. handler_cases; intros [= <- <-]; discriminate.
    + unfold handleMembersStep.
      pose proof (wellFormed_getOrCreate request sessionStore
                    (reachable_wellFormed _ Hreach)) as [_ Hamount].
      destruct Hamount as (a & Ha & _); [rewrite Hs; discriminate |].
      rewrite Ha. handler_cases; intros [= <- <-]; discriminate.
  - contradiction.
  - exfalso.
    pose proof (wellFormed_getOrCreate request sessionStore
                  (reachable_wellFormed _ Hreach)) as [_ Hamount].
    destruct Hamount as (a & Ha & _); [rewrite Hm; discriminate | congruence].
Qed.

(** The members turn of the sample dialogue. *)
Lemma only_confirmation_ends_witness :
  reachable storeAtMembers
  /\ USSDState.step (getOrCreate membersRequest storeAtMembers) <> ConfirmStep
  /\ exists response,
       snd (processUSSDRequest failingStore membersRequest storeAtMembers)
       = Normal response
       /\ USSDResponse.status response = CON.
Proof.
  assert (H1 : reachable storeAtMembers) by apply reach_turn, reach_start.
  assert (H2 : USSDState.step (getOrCreate membersRequest storeAtMembers)
               <> ConfirmStep) by (vm_compute; discriminate).
  split; [exact H1 |]. split; [exact H2 |].
  exact (only_confirmation_ends failingStore membersRequest storeAtMembers H1 H2).
Defined.

(** ** What a dialogue carries *)

(** X14: once a session has left the amount step, no turn changes its
    amount, its phone number or its creator name: a session still stored
    after the turn holds the same three values. *)
Theorem session_data_is_kept createBill request sessionStore sessionId state state' :
  sessionStore !! sessionId = Some state ->
  USSDState.step state <> AmountStep ->
  fst (processUSSDRequest createBill request sessionStore) !! sessionId
  = Some state' ->
  USSDState.amount state' = USSDState.amount state
  /\ USSDState.phoneNumber state' = USSDState.phoneNumber state
  /\ USSDState.creatorName state' = USSDState.creatorName state.
Proof.
  intros Hstored Hstep.
  destruct (decide (sessionId = USSDRequest.sessionId request)) as [-> | Hne];
    [| rewrite processUSSDRequest_other by exact Hne; intros H;
       rewrite Hstored in H; injection H as <-; auto].
  pose proof (processUSSDRequest_effect createBill request sessionStore) as Heff.
  rewrite (getOrCreate_stored _ _ _ Hstored) in Heff.
  destruct Heff as [| Hs | a Hs _ _ | phones Hs _ _ | Hs];
    try contradiction;
    rewrite ?Hstored, ?lookup_insert_eq, ?lookup_delete_eq;
    intros [= <-]; auto.
Qed.

(** The members turn of the sample dialogue. *)
Lemma session_data_is_kept_witness :
  storeAtMembers !! js "s1" = Some stateAtMembers
  /\ USSDState.step stateAtMembers <> AmountStep
  /\ fst (processUSSDRequest acceptingStore membersRequest storeAtMembers)
       !! js "s1" = Some stateAtConfirm
  /\ USSDState.amount stateAtConfirm = USSDState.amount stateAtMembers
  /\ USSDState.phoneNumber stateAtConfirm = USSDState.phoneNumber stateAtMembers
  /\ USSDState.creatorName stateAtConfirm = USSDState.creatorName stateAtMembers.
Proof.
  assert (H1 : storeAtMembers !! js "s1" = Some stateAtMembers)
    by (vm_compute; reflexivity).
  assert (H2 : USSDState.step stateAtMembers <> AmountStep) by discriminate.
  assert (H3 : fst (processUSSDRequest acceptingStore membersRequest storeAtMembers)
                 !! js "s1" = Some stateAtConfirm) by (vm_compute; reflexivity).
  split; [exact H1 |]. split; [exact H2 |]. split; [exact H3 |].
  exact (session_data_is_kept acceptingStore membersRequest storeAtMembers
           (js "s1") stateAtMembers stateAtConfirm H1 H2 H3).
Defined.

Lemma trimEnd_idempotent s : trimEnd (trimEnd s) = trimEnd s.
Proof.
  unfold trimEnd. rewrite rev_involutive. f_equal.
  destruct (trimStart (rev s)) as [| c r] eqn:E; [reflexivity |].
  apply trimStart_head in E as Hc. simpl. rewrite Hc. reflexivity.
Qed.

Lemma trim_idempotent s : trim (trim s) = trim s.
Proof.
  unfold trim at 1. rewrite trimStart_trim. unfold trim.
  apply trimEnd_idempotent.
Qed.

Lemma isBlank_trimmed s : isBlank (trim s) = isBlank s.
Proof.
  unfold isBlank. rewrite trim_idempotent.
  destruct s as [| c r]; [reflexivity |].
  destruct (jseqb (trim (c :: r)) []); reflexivity.
Qed.

(** X15: at the amount step, white space around the text does not count:
    the turn on the trimmed text has the same outcome, store and response
    alike, as the turn on the text as sent. *)
Theorem amount_text_is_trimmed createBill request sessionStore :
  USSDState.step (getOrCreate request sessionStore) = AmountStep ->
  processUSSDRequest createBill
    (withText request (trim (USSDRequest.text request))) sessionStore
  = processUSSDRequest createBill request sessionStore.
Proof.
  intros Hstep. unfold processUSSDRequest.
  change (getOrCreate (withText request (trim (USSDRequest.text request)))
            sessionStore)
    with (getOrCreate request sessionStore).
  rewrite Hstep. unfold handleAmountStep, withText. simpl.
  rewrite isBlank_trimmed, trim_idempotent. reflexivity.
Qed.

(** A first turn with the text " 5000 ". *)
Lemma amount_text_is_trimmed_witness :
  USSDState.step (getOrCreate (sampleRequest "s1" " 5000 ") ∅) = AmountStep
  /\ processUSSDRequest acceptingStore
       (withText (sampleRequest "s1" " 5000 ") (trim (js " 5000 "))) ∅
     = processUSSDRequest acceptingStore (sampleRequest "s1" " 5000 ") ∅.
Proof.
  split; [reflexivity |].
  exact (amount_text_is_trimmed acceptingStore (sampleRequest "s1" " 5000 ") ∅
           eq_refl).
Defined.

(** X16: a whole dialogue leaves no trace in the store.  From a store
    that does not hold the session id, an amount turn with a value above
    zero, a members turn with at least one valid number and a confirmation
    "1" on which the Bill Store succeeds bring the store back to what it
    was, and the last response has status [END].  The Bill Store is called
    with the parsed amount, the kept members, the phone number of the
    caller of the amount turn and the name "User". *)
Theorem dialogue_leaves_no_trace createBill sessionId code1 phone1 text1
    code2 phone2 text2 code3 phone3 sessionStore bill :
  sessionStore !! sessionId = None ->
  gt0 (parseFloat text1) = true ->
  isBlank text2 = false ->
  parsePhoneNumbers text2 <> [] ->
  createBill
    {| CreateBillRequest.creatorPhone := Some phone1;
       CreateBillRequest.creatorName := js "User";
       CreateBillRequest.amount := Some (parseFloat text1);
       CreateBillRequest.memberPhones := parsePhoneNumbers text2 |}
  = Normal bill ->
  let s1 := runTurn (createBill, USSDRequest.mk sessionId code1 phone1 text1)
              sessionStore in
  let s2 := runTurn (createBill, USSDRequest.mk sessionId code2 phone2 text2) s1 in
  exists response,
    processUSSDRequest createBill
      (USSDRequest.mk sessionId code3 phone3 (js "1")) s2
    = (sessionStore, Normal response)
    /\ USSDResponse.status response = END.
Proof.
  intros Hnone Hgt Hblank Hphones Hbill s1 s2.
  set (r1 := USSDRequest.mk sessionId code1 phone1 text1) in *.
  set (r2 := USSDRequest.mk sessionId code2 phone2 text2) in *.
  set (r3 := USSDRequest.mk sessionId code3 phone3 (js "1")).
  assert (Hfresh : getOrCreate r1 sessionStore = freshState phone1)
    by (apply getOrCreate_fresh; exact Hnone).
  assert (Hs1 : s1 = <[sessionId :=
                        {| USSDState.step := MembersStep;
                           USSDState.amount := Some (parseFloat text1);
                           USSDState.memberPhones := [];
                           USSDState.creatorName := None;
                           USSDState.phoneNumber := Some phone1 |}]> sessionStore).
  { subst s1. unfold runTurn. simpl.
    rewrite (amount_turn createBill r1 sessionStore);
      rewrite ?Hfresh; [reflexivity | reflexivity | exact Hgt]. }
  assert (Hs2 : s2 = <[sessionId :=
                        {| USSDState.step := ConfirmStep;
                           USSDState.amount := Some (parseFloat text1);
                           USSDState.memberPhones := parsePhoneNumbers text2;
                           USSDState.creatorName := None;
                           USSDState.phoneNumber := Some phone1 |}]> s1).
  { subst s2. unfold runTurn. simpl.
    assert (Hin : s1 !! USSDRequest.sessionId r2
                  = Some {| USSDState.step := MembersStep;
                            USSDState.amount := Some (parseFloat text1);
                            USSDState.memberPhones := [];
                            USSDState.creatorName := None;
                            USSDState.phoneNumber := Some phone1 |})
      by (rewrite Hs1; apply lookup_insert_eq).
    exact (members_turn createBill r2 s1 _ Hin eq_refl Hblank Hphones). }
  destruct (confirm_turn createBill r3 s2
              {| USSDState.step := ConfirmStep;
                 USSDState.amount := Some (parseFloat text1);
                 USSDState.memberPhones := parsePhoneNumbers text2;
                 USSDState.creatorName := None;
                 USSDState.phoneNumber := Some phone1 |} bill)
    as (response & Hrun & Hend);
    [rewrite Hs2; apply lookup_insert_eq | reflexivity | reflexivity | exact Hbill |].
  exists response. split; [| exact Hend].
  rewrite Hrun. f_equal. simpl.
  rewrite Hs2, Hs1, insert_insert_eq. apply delete_insert_id, Hnone.
Qed.

(** The sample dialogue on the empty store. *)
Lemma dialogue_leaves_no_trace_witness :
  exists response,
    processUSSDRequest acceptingStore (sampleRequest "s1" "1") storeAtConfirm
    = (∅, Normal response)
    /\ USSDResponse.status response = END.
Proof.
  exact (dialogue_leaves_no_trace acceptingStore (js "s1")
           (js "*384#") (js "+255700000000") (js "5000")
           (js "*384#") (js "+255700000000")
           (js "0712345678, notanumber, 0698765432")
           (js "*384#") (js "+255700000000") ∅
           (BillWithMembers.mk 7 (js "50000")
              [BillMember.mk (js "0712345678") (js "25000");
               BillMember.mk (js "0698765432") (js "25000")])
           eq_refl eq_refl eq_refl
           ltac:(vm_compute; discriminate) eq_refl).
Defined.

(** ** What reaches the Bill Store *)

Lemma reachable_placeholderName sessionStore :
  reachable sessionStore ->
  forall sessionId state,
    sessionStore !! sessionId = Some state -> placeholderName state.
Proof.
  induction 1 as [| createBill request sessionStore _ IH | sessionStore _ _];
    intros sessionId state;
    try (unfold clearAllSessions; rewrite lookup_empty; discriminate).
  destruct (decide (sessionId = USSDRequest.sessionId request)) as [-> | Hne];
    [| rewrite processUSSDRequest_other by exact Hne; apply IH].
  assert (Hstate : placeholderName (getOrCreate request sessionStore)).
  { unfold getOrCreate.
    destruct (sessionStore !! _) as [st |] eqn:Hst; simpl;
      [eapply IH, Hst | left; reflexivity]. }
  destruct (processUSSDRequest_effect createBill request sessionStore)
    as [| Hs | a Hs _ _ | phones Hs _ _ | Hs];
    rewrite ?lookup_insert_eq, ?lookup_delete_eq;
    try apply IH; try discriminate;
    intros [= <-]; unfold placeholderName; simpl; auto.
Qed.

Lemma orUser_placeholder state :
  placeholderName state -> orUser (USSDState.creatorName state) = js "User".
Proof. intros [-> | ->]; reflexivity. Qed.

(** X17: on a reachable store, the Bill Store is only ever asked to create
    well-formed bills.  The request built from a session at the
    confirmation step has the name "User", a creator phone, an amount
    above zero and a non-empty list of members that all match the phone
    pattern; and two Bill Stores that agree on such requests give the same
    outcome to every turn. *)
Theorem bill_requests_are_well_formed sessionStore :
  reachable sessionStore ->
  (forall sessionId state,
     sessionStore !! sessionId = Some state ->
     USSDState.step state = ConfirmStep ->
     wellFormedRequest (billRequestOf state))
  /\ (forall (createBill1 createBill2 : BillStore) request,
        (forall r, wellFormedRequest r -> createBill1 r = createBill2 r) ->
        processUSSDRequest createBill1 request sessionStore
        = processUSSDRequest createBill2 request sessionStore).
Proof.
  intros Hreach.
  assert (Hwf : forall sessionId state,
            sessionStore !! sessionId = Some state ->
            USSDState.step state = ConfirmStep ->
            wellFormedRequest (billRequestOf state)).
  { intros sessionId state Hstored Hstep.
    destruct (reachable_wellFormed _ Hreach _ _ Hstored) as [Hphone Hamount].
    destruct (reachable_membersChecked _ Hreach _ _ Hstored Hstep) as [Hne Hall].
    pose proof (reachable_placeholderName _ Hreach _ _ Hstored) as Hname.
    unfold wellFormedRequest, billRequestOf. simpl.
    split; [apply orUser_placeholder, Hname |]. split; [exact Hphone |].
    split; [apply Hamount; rewrite Hstep; discriminate |]. auto. }
  split; [exact Hwf |].
  intros createBill1 createBill2 request Hagree. unfold processUSSDRequest.
  destruct (USSDState.step (getOrCreate request sessionStore)) eqn:Hstep;
    try reflexivity.
  unfold getOrCreate in *.
  destruct (sessionStore !! USSDRequest.sessionId request) as [state |] eqn:Hstored;
    simpl in *; [| discriminate Hstep].
  unfold handleConfirmStep.
  change {| CreateBillRequest.creatorPhone := USSDState.phoneNumber state;
            CreateBillRequest.creatorName := orUser (USSDState.creatorName state);
            CreateBillRequest.amount := USSDState.amount state;
            CreateBillRequest.memberPhones := USSDState.memberPhones state |}
    with (billRequestOf state).
  rewrite (Hagree _ (Hwf _ _ Hstored Hstep)). reflexivity.
Qed.

Lemma pickyStore_agrees r :
  wellFormedRequest r -> acceptingStore r = pickyStore r.
Proof.
  intros (_ & _ & (a & Ha & Hgt) & _). unfold pickyStore.
  rewrite Ha, Hgt. reflexivity.
Qed.

(** The confirmation of the sample dialogue, with a Bill Store that takes
    every request and with one that refuses a request without an amount
    above zero. *)
Lemma bill_requests_are_well_formed_witness :
  reachable storeAtConfirm
  /\ wellFormedRequest (billRequestOf stateAtConfirm)
  /\ processUSSDRequest acceptingStore (sampleRequest "s1" "1") storeAtConfirm
     = processUSSDRequest pickyStore (sampleRequest "s1" "1") storeAtConfirm.
Proof.
  assert (Hreach : reachable storeAtConfirm)
    by apply reach_turn, reach_turn, reach_start.
  assert (Hstored : storeAtConfirm !! js "s1" = Some stateAtConfirm)
    by (vm_compute; reflexivity).
  destruct (bill_requests_are_well_formed storeAtConfirm Hreach) as [Hwf Hsame].
  split; [exact Hreach |].
  split; [exact (Hwf (js "s1") stateAtConfirm Hstored eq_refl) |].
  exact (Hsame acceptingStore pickyStore (sampleRequest "s1" "1") pickyStore_agrees).
Defined.

(** ** The route *)


(** X19: the schema of the route accepts a body exactly when [sessionId],
    [serviceCode] and [phoneNumber] are strings that are not empty and
    [text] is a string or is missing; a missing [text] is read as the
    empty string, and the other three fields are passed on unchanged. *)
Theorem ussdRequestSchema_spec (b : Body.t) (request : USSDRequest.t) :
  ussdRequestSchema (Some b) = Some request
  <-> Body.sessionId b = Str (USSDRequest.sessionId request)
      /\ USSDRequest.sessionId request <> []
      /\ Body.serviceCode b = Str (USSDRequest.serviceCode request)
      /\ USSDRequest.serviceCode request <> []
      /\ Body.phoneNumber b = Str (USSDRequest.phoneNumber request)
      /\ USSDRequest.phoneNumber request <> []
      /\ ((Body.text b = Absent /\ USSDRequest.text request = [])
          \/ Body.text b = Str (USSDRequest.text request)).
Proof.
  destruct b as [bs bc bp bt], request as [sid code phone text]. simpl.
  split.
  - destruct bs as [| | [| c1 s1]]; try discriminate;
      destruct bc as [| | [| c2 s2]]; try discriminate;
      destruct bp as [| | [| c3 s3]]; try discriminate;
      destruct bt as [| | t]; try discriminate;
      simpl; intros [= <- <- <- <-];
      repeat (split; [first [reflexivity | discriminate] |]); auto.
  - intros (-> & Hs & -> & Hc & -> & Hp & Ht).
    destruct sid as [| c1 s1]; [contradiction |].
    destruct code as [| c2 s2]; [contradiction |].
    destruct phone as [| c3 s3]; [contradiction |].
    destruct Ht as [[-> ->] | ->]; reflexivity.
Qed.

(** X20: the health endpoint reports the session count as 'N/A' exactly
    when no session is stored, in particular after [clearAllSessions], and
    as the number of stored sessions otherwise. *)
Theorem healthSessionCount_spec (sessionStore : SessionStore) :
  (healthSessionCount sessionStore = NotAvailable <-> sessionStore = ∅)
  /\ (sessionStore <> ∅ ->
      healthSessionCount sessionStore = Count (getSessionCount sessionStore))
  /\ healthSessionCount (clearAllSessions sessionStore) = NotAvailable.
Proof.
  unfold healthSessionCount, getSessionCount, clearAllSessions.
  split; [| split].
  - rewrite <- map_size_empty_iff.
    destruct (size sessionStore); split; try reflexivity; discriminate.
  - intros Hne. apply map_size_non_empty_iff in Hne.
    destruct (size sessionStore); [contradiction | reflexivity].
  - rewrite map_size_empty. reflexivity.
Qed.

(** X21: [clearAllSessions] resets every dialogue: after it no session is
    stored, and a turn with any session id is handled as the first turn of
    a new dialogue, on the fresh state. *)
Theorem clearAllSessions_resets createBill request sessionStore :
  getSessionCount (clearAllSessions sessionStore) = 0%nat
  /\ (forall sessionId,
        getSessionInfo sessionId (clearAllSessions sessionStore) = None)
  /\ processUSSDRequest createBill request (clearAllSessions sessionStore)
     = handleAmountStep request
         (freshState (USSDRequest.phoneNumber request)) ∅.
Proof.
  unfold getSessionCount, getSessionInfo, clearAllSessions.
  split; [apply map_size_empty |]. split; [intros; apply lookup_empty |].
  apply processUSSDRequest_unseen, lookup_empty.
Qed.

(** ** The member list *)

Lemma split_nonempty sep s : split sep s <> [].
Proof.
  destruct s as [| c r]; simpl; [discriminate |].
  destruct (c =? sep); [discriminate |].
  destruct (split sep r); discriminate.
Qed.

Lemma split_app sep a b :
  split sep (a ++ sep :: b) = split sep a ++ split sep b.
Proof.
  induction a as [| c a IH]; simpl.
  - rewrite N.eqb_refl. reflexivity.
  - destruct (c =? sep); [rewrite IH; reflexivity |].
    rewrite IH. pose proof (split_nonempty sep a) as Hne.
    destruct (split sep a); [contradiction | reflexivity].
Qed.

Lemma split_no_sep sep s :
  Forall (fun c => c <> sep) s -> split sep s = [s].
Proof.
  induction 1 as [| c s Hc _ IH]; simpl; [reflexivity |].
  apply N.eqb_neq in Hc. rewrite Hc, IH. reflexivity.
Qed.

Lemma trimStart_id s :
  Forall (fun c => isWhiteSpace c = false) s -> trimStart s = s.
Proof. destruct 1 as [| c s Hc _]; simpl; [| rewrite Hc]; reflexivity. Qed.

Lemma trim_id s : Forall (fun c => isWhiteSpace c = false) s -> trim s = s.
Proof.
  intros H. unfold trim, trimEnd. rewrite (trimStart_id s H).
  rewrite trimStart_id; [apply rev_involutive |].
  apply List.Forall_forall. intros c Hc. apply in_rev in Hc.
  rewrite List.Forall_forall in H. apply H, Hc.
Qed.

Lemma national_digits n : isNational n = true -> Forall (fun c => isDigit c = true) n.
Proof.
  destruct n as [| d ds]; [discriminate |]. unfold isNational. intros H.
  apply andb_true_iff in H as [H Hf]. apply andb_true_iff in H as [Hd _].
  constructor; [apply is67_digit, Hd |].
  apply List.Forall_forall. rewrite forallb_forall in Hf. exact Hf.
Qed.

(** An accepted phone number is made of digits and, at most, a plus. *)
Lemma valid_chars phone :
  isValidPhoneNumber phone = true ->
  Forall (fun c => isDigit c = true \/ c = 0x2B) phone.
Proof.
  intros H.
  assert (Hd : forall n, isNational n = true ->
                 Forall (fun c => isDigit c = true \/ c = 0x2B) n).
  { intros n Hn. eapply Forall_impl; [apply national_digits, Hn |].
    intros c Hc. left. exact Hc. }
  phone_cases H.
  - apply Hd, Hn.
  - rewrite js_0. constructor; [left; reflexivity | apply Hd, Hn].
  - rewrite js_plus255. constructor; [right; reflexivity |].
    repeat (constructor; [left; reflexivity |]). apply Hd, Hn.
Qed.

Lemma parsePhoneNumbers_valid phone :
  isValidPhoneNumber phone = true -> parsePhoneNumbers phone = [phone].
Proof.
  intros H. pose proof (valid_chars phone H) as Hchars.
  unfold parsePhoneNumbers. rewrite split_no_sep.
  - simpl. rewrite trim_id, H; [reflexivity |].
    eapply Forall_impl; [exact Hchars |].
    intros c [Hc | ->]; [| reflexivity].
    destruct (isWhiteSpace c) eqn:Hw; [| reflexivity].
    apply whiteSpace_not_digit in Hw. congruence.
  - eapply Forall_impl; [exact Hchars |].
    intros c [Hc | ->]; [| discriminate].
    intros ->. discriminate Hc.
Qed.

Lemma parsePhoneNumbers_app a b :
  parsePhoneNumbers (a ++ 0x2C :: b) = parsePhoneNumbers a ++ parsePhoneNumbers b.
Proof.
  unfold parsePhoneNumbers.
  rewrite split_app, map_app. apply List.filter_app.
Qed.

(** X22: the members step reads back a comma-separated list of accepted
    phone numbers as it was written: same numbers, same order, a number
    written twice kept twice. *)
Theorem parsePhoneNumbers_of_join (phones : list jsstring) :
  phones <> [] ->
  Forall (fun p => isValidPhoneNumber p = true) phones ->
  parsePhoneNumbers (join [0x2C] phones) = phones.
Proof.
  intros Hne Hall. induction Hall as [| p ps Hp Hps IH]; [contradiction |].
  destruct ps as [| q ps].
  - simpl. apply parsePhoneNumbers_valid, Hp.
  - change (join [0x2C] (p :: q :: ps)) with (p ++ 0x2C :: join [0x2C] (q :: ps)).
    rewrite parsePhoneNumbers_app, (parsePhoneNumbers_valid p Hp), IH;
      [reflexivity | discriminate].
Qed.

(** One number written twice, then another. *)
Lemma parsePhoneNumbers_of_join_witness :
  parsePhoneNumbers
    (join [0x2C] [js "0712345678"; js "0712345678"; js "+255698765432"])
  = [js "0712345678"; js "0712345678"; js "+255698765432"].
Proof.
  exact (parsePhoneNumbers_of_join
           [js "0712345678"; js "0712345678"; js "+255698765432"]
           ltac:(discriminate)
           ltac:(repeat constructor)).
Defined.

(** ** Continuing and repeating *)

(** X23: a turn answered with status [CON] deletes nothing: every session
    stored before the turn is still stored after it. *)
Theorem CON_keeps_sessions createBill request sessionStore after response :
  processUSSDRequest createBill request sessionStore = (after, Normal response) ->
  USSDResponse.status response = CON ->
  forall sessionId,
    is_Some (sessionStore !! sessionId) -> is_Some (after !! sessionId).
Proof.
  intros Hrun Hcon sessionId Hstored.
  assert (Hcases : after = sessionStore
                   \/ exists state,
                        after = <[USSDRequest.sessionId request := state]> sessionStore).
  { revert Hrun. unfold processUSSDRequest.
    destruct (USSDState.step _).
    - unfold handleAmountStep. handler_cases; simpl; intros [= <- <-]; eauto.
    - unfold handleMembersStep. handler_cases; simpl; intros [= <- <-]; eauto.
    - unfold handleConfirmStep.
      handler_cases; intros [= <- <-]; first [discriminate Hcon | eauto]. }
  destruct Hcases as [-> | [state ->]]; [exact Hstored |].
  destruct (decide (sessionId = USSDRequest.sessionId request)) as [-> | Hne].
  - rewrite lookup_insert_eq. eauto.
  - rewrite lookup_insert_ne by congruence. exact Hstored.
Qed.

(** The members turn of the sample dialogue. *)
Lemma CON_keeps_sessions_witness :
  exists after response,
    processUSSDRequest failingStore membersRequest storeAtMembers
    = (after, Normal response)
    /\ USSDResponse.status response = CON
    /\ is_Some (storeAtMembers !! js "s1")
    /\ is_Some (after !! js "s1").
Proof.
  destruct (processUSSDRequest failingStore membersRequest storeAtMembers)
    as [after [response | e]] eqn:Hrun; [| vm_compute in Hrun; discriminate Hrun].
  assert (Hcon : USSDResponse.status response = CON)
    by (vm_compute in Hrun; injection Hrun as _ <-; reflexivity).
  assert (Hin : is_Some (storeAtMembers !! js "s1"))
    by (vm_compute; eexists; reflexivity).
  exists after, response. split; [reflexivity |]. split; [exact Hcon |].
  split; [exact Hin |].
  exact (CON_keeps_sessions failingStore membersRequest storeAtMembers after
           response Hrun Hcon (js "s1") Hin).
Defined.

(** X24: the welcome turn can be repeated.  At the amount step, a blank
    text sent a second time with the same request leaves the store as the
    first turn left it and gets the same response. *)
Theorem welcome_is_repeatable createBill request sessionStore :
  USSDState.step (getOrCreate request sessionStore) = AmountStep ->
  isBlank (USSDRequest.text request) = true ->
  processUSSDRequest createBill request
    (fst (processUSSDRequest createBill request sessionStore))
  = processUSSDRequest createBill request sessionStore.
Proof.
  intros Hstep Hblank.
  assert (Hturn : forall store,
            USSDState.step (getOrCreate request store) = AmountStep ->
            processUSSDRequest createBill request store
            = (<[USSDRequest.sessionId request :=
                   {| USSDState.step := AmountStep;
                      USSDState.amount := USSDState.amount (getOrCreate request store);
                      USSDState.memberPhones :=
                        USSDState.memberPhones (getOrCreate request store);
                      USSDState.creatorName := Some (js "User");
                      USSDState.phoneNumber :=
                        Some (USSDRequest.phoneNumber request) |}]> store,
               Normal (createResponse (USSDRequest.sessionId request)
                         (js "Welcome " ++ js "User" ++ js "!" ++ nl ++ nl
                          ++ js "Enter the total bill amount:") CON))).
  { intros store Hs. unfold processUSSDRequest. rewrite Hs.
    unfold handleAmountStep. rewrite Hblank, Hs. reflexivity. }
  rewrite (Hturn sessionStore Hstep). simpl.
  assert (Hget : getOrCreate request
                   (<[USSDRequest.sessionId request :=
                        {| USSDState.step := AmountStep;
                           USSDState.amount :=
                             USSDState.amount (getOrCreate request sessionStore);
                           USSDState.memberPhones :=
                             USSDState.memberPhones (getOrCreate request sessionStore);
                           USSDState.creatorName := Some (js "User");
                           USSDState.phoneNumber :=
                             Some (USSDRequest.phoneNumber request) |}]> sessionStore)
                 = {| USSDState.step := AmountStep;
                      USSDState.amount :=
                        USSDState.amount (getOrCreate request sessionStore);
                      USSDState.memberPhones :=
                        USSDState.memberPhones (getOrCreate request sessionStore);
                      USSDState.creatorName := Some (js "User");
                      USSDState.phoneNumber :=
                        Some (USSDRequest.phoneNumber request) |}).
  { unfold getOrCreate at 1. rewrite lookup_insert_eq. reflexivity. }
  rewrite Hturn by (rewrite Hget; reflexivity).
  rewrite Hget. simpl. rewrite insert_insert_eq. reflexivity.
Qed.

(** The first turn of a dialogue, sent twice. *)
Lemma welcome_is_repeatable_witness :
  USSDState.step (getOrCreate (sampleRequest "s1" "") ∅) = AmountStep
  /\ isBlank (js "") = true
  /\ processUSSDRequest failingStore (sampleRequest "s1" "")
       (fst (processUSSDRequest failingStore (sampleRequest "s1" "") ∅))
     = processUSSDRequest failingStore (sampleRequest "s1" "") ∅.
Proof.
  split; [reflexivity |]. split; [reflexivity |].
  exact (welcome_is_repeatable failingStore (sampleRequest "s1" "") ∅
           eq_refl eq_refl).
Defined.

(** ** Text after the amount *)

Section TrailingText.
Variable c : N.
Variable w : jsstring.
Hypothesis Hc : cannotContinue c = true.

Lemma stop_not_digit : isDigit c = false.
Proof. unfold cannotContinue in Hc. destruct (isDigit c); [discriminate Hc | reflexivity]. Qed.

Lemma stop_neq k : cannotContinue k = false -> (c =? k) = false.
Proof.
  intros Hk. destruct (N.eqb_spec c k) as [-> |]; [congruence | reflexivity].
Qed.

Lemma takeSign_stop u :
  takeSign (u ++ c :: w) = (fst (takeSign u), snd (takeSign u) ++ c :: w).
Proof.
  destruct u as [| d r]; simpl.
  - rewrite !(stop_neq _) by reflexivity. reflexivity.
  - destruct (d =? 0x2B); [reflexivity |]. destruct (d =? 0x2D); reflexivity.
Qed.

Lemma span_stop u :
  span isDigit (u ++ c :: w)
  = (fst (span isDigit u), snd (span isDigit u) ++ c :: w).
Proof.
  induction u as [| d r IH]; simpl.
  - rewrite stop_not_digit. reflexivity.
  - destruct (isDigit d); [| reflexivity].
    rewrite IH. destruct (span isDigit r). reflexivity.
Qed.

Lemma startsWith_stop p :
  forallb (fun a => negb (cannotContinue a)) p = true ->
  forall u, startsWith (u ++ c :: w) p = startsWith u p.
Proof.
  induction p as [| a p IH]; intros Hp u; [reflexivity |].
  simpl in Hp. apply andb_true_iff in Hp as [Ha Hp].
  apply negb_true_iff in Ha.
  destruct u as [| b u]; simpl.
  - rewrite N.eqb_sym, (stop_neq a Ha). reflexivity.
  - rewrite IH by exact Hp. reflexivity.
Qed.

Lemma fractionPart_stop r1 :
  fractionPart (r1 ++ c :: w)
  = (fst (fractionPart r1), snd (fractionPart r1) ++ c :: w).
Proof.
  destruct r1 as [| d r]; simpl.
  - rewrite (stop_neq _) by reflexivity. reflexivity.
  - destruct (d =? 0x2E); [apply span_stop | reflexivity].
Qed.

Lemma exponentPart_stop r2 : exponentPart (r2 ++ c :: w) = exponentPart r2.
Proof.
  destruct r2 as [| d r]; simpl.
  - rewrite !(stop_neq _) by reflexivity. reflexivity.
  - destruct ((d =? 0x65) || (d =? 0x45)); [| reflexivity].
    rewrite takeSign_stop. destruct (takeSign r) as [neg r1]. simpl.
    rewrite span_stop. destruct (span isDigit r1). reflexivity.
Qed.

Lemma strDecimalPrefix_stop u :
  strDecimalPrefix (u ++ c :: w) = strDecimalPrefix u.
Proof.
  unfold strDecimalPrefix. rewrite takeSign_stop.
  destruct (takeSign u) as [neg rest]. cbn [fst snd].
  rewrite startsWith_stop by reflexivity.
  destruct (startsWith rest (js "Infinity")); [reflexivity |].
  rewrite span_stop. destruct (span isDigit rest) as [ip r1]. cbn [fst snd].
  rewrite fractionPart_stop. destruct (fractionPart r1) as [fp r2]. cbn [fst snd].
  rewrite exponentPart_stop. reflexivity.
Qed.

Lemma trimStart_app_nonblank u v :
  trimStart u <> [] -> trimStart (u ++ v) = trimStart u ++ v.
Proof.
  induction u as [| d u IH]; simpl; [contradiction |].
  destruct (isWhiteSpace d); [exact IH | reflexivity].
Qed.

Lemma parseFloat_stop text :
  gt0 (parseFloat text) = true ->
  parseFloat (text ++ c :: w) = parseFloat text.
Proof.
  intros Hgt. unfold parseFloat.
  rewrite trimStart_app_nonblank; [apply strDecimalPrefix_stop |].
  intros Hnil. unfold parseFloat in Hgt. rewrite Hnil in Hgt. discriminate Hgt.
Qed.

End TrailingText.

Lemma positive_not_blank text : gt0 (parseFloat text) = true -> isBlank text = false.
Proof.
  intros Hgt. destruct (isBlank text) eqn:Hb; [| reflexivity].
  apply isBlank_trim in Hb.
  rewrite <- parseFloat_trim, Hb, parseFloat_empty in Hgt. discriminate Hgt.
Qed.

(** X25: the amount step reads the number at the head of the text and
    ignores what follows it.  When the text has a value above zero, adding
    after it a character that cannot continue a number (a letter outside
    "Infinity" and e, a space, a sign of currency) and then anything at
    all changes nothing: same store, same response. *)
Theorem amount_ignores_trailing_text createBill request sessionStore c rest :
  USSDState.step (getOrCreate request sessionStore) = AmountStep ->
  gt0 (parseFloat (USSDRequest.text request)) = true ->
  cannotContinue c = true ->
  processUSSDRequest createBill
    (withText request (USSDRequest.text request ++ c :: rest)) sessionStore
  = processUSSDRequest createBill request sessionStore.
Proof.
  intros Hstep Hgt Hc.
  pose proof (parseFloat_stop c rest Hc _ Hgt) as Hsame.
  assert (Hgt' : gt0 (parseFloat (USSDRequest.text request ++ c :: rest)) = true)
    by (rewrite Hsame; exact Hgt).
  unfold processUSSDRequest.
  change (getOrCreate (withText request (USSDRequest.text request ++ c :: rest))
            sessionStore)
    with (getOrCreate request sessionStore).
  rewrite Hstep. unfold handleAmountStep, withText. simpl.
  rewrite (positive_not_blank _ Hgt), (positive_not_blank _ Hgt').
  rewrite !parseFloat_trim, Hsame. reflexivity.
Qed.

(** The text "5000" followed by " TZS". *)
Lemma amount_ignores_trailing_text_witness :
  USSDState.step (getOrCreate (sampleRequest "s1" "5000") ∅) = AmountStep
  /\ gt0 (parseFloat (js "5000")) = true
  /\ cannotContinue 0x20 = true
  /\ processUSSDRequest failingStore
       (withText (sampleRequest "s1" "5000") (js "5000" ++ 0x20 :: js "TZS")) ∅
     = processUSSDRequest failingStore (sampleRequest "s1" "5000") ∅.
Proof.
  repeat (split; [reflexivity |]).
  exact (amount_ignores_trailing_text failingStore (sampleRequest "s1" "5000") ∅
           0x20 (js "TZS") eq_refl eq_refl eq_refl).
Defined.
